(** * Inventory service (main.js): shallow embedding and verified properties

    The service is an Express application over one MySQL table
    [inventory] and a cache directory of photo files.  The embedding has
    four layers, in the order of the file:

    - [Js]: the JavaScript built-ins the handlers rely on ([parseInt],
      [String.prototype.trim], truthiness, template literals);
    - the data model: table rows, selected items, DTOs, requests, replies;
    - the world (table, AUTO_INCREMENT counter, cache directory, outcome of
      the coming [dbPool.query] calls) and a state monad over it;
    - the route handlers and the Express dispatch, one definition per
      [app.<verb>] of main.js.

    Conventions of the embedding:

    - a request is what the handlers see of it after the body parsers and
      multer have run without error: method, path segments, parsed body,
      the stored [photo] file part;
    - routes match as in [express()] with its defaults: the literal parts
      of a path in any letter case, a closing slash ignored;
    - an id is an integer; [parseInt] and the template literals of main.js
      work on JavaScript numbers, which hold an integer exactly in the safe
      range (below 2^53 in magnitude), and the properties that depend on
      how an id is read or printed are stated for that range;
    - the callbacks of one request run in source order; [fs.unlink] with
      its empty callback is taken at the point where it is issued, and it
      removes the file when the file is there;
    - every [dbPool.query] may call back with [err]: the world announces
      the outcomes of the coming queries, and a failed statement leaves the
      table as it was. *)

From Stdlib Require Import ZArith Ascii String Lia.
From stdpp Require Import base gmap strings list pretty sorting.

(** ** JavaScript built-ins *)

(** A JavaScript string is read as a sequence of code units; the embedding
    covers the code units below 256, one [ascii] each. *)
Module Js.

(** WhiteSpace and LineTerminator code units below 256: TAB, LF, VT, FF, CR,
    SP and NBSP.  These are what [trim] and [parseInt] strip. *)
Definition isWhiteSpace (c : ascii) : bool :=
  let n := nat_of_ascii c in
  Nat.eqb n 9 || Nat.eqb n 10 || Nat.eqb n 11 || Nat.eqb n 12
  || Nat.eqb n 13 || Nat.eqb n 32 || Nat.eqb n 160.

Fixpoint trimStart (s : string) : string :=
  match s with
  | String c r => if isWhiteSpace c then trimStart r else s
  | EmptyString => EmptyString
  end.

Fixpoint trimEnd (s : string) : string :=
  match s with
  | EmptyString => EmptyString
  | String c r =>
      match trimEnd r with
      | EmptyString =>
          if isWhiteSpace c then EmptyString else String c EmptyString
      | r' => String c r'
      end
  end.

(** [s.trim()] *)
Definition trim (s : string) : string := trimEnd (trimStart s).

(** ToBoolean on a string: only the empty string is falsy. *)
Definition truthy (s : string) : bool :=
  match s with EmptyString => false | String _ _ => true end.

(** ToBoolean on a value that is a string, [null] or [undefined]. *)
Definition truthy_opt (o : option string) : bool :=
  match o with Some s => truthy s | None => false end.

Definition isDigit (c : ascii) : bool :=
  let n := nat_of_ascii c in Nat.leb 48 n && Nat.leb n 57.

Definition digitValue (c : ascii) : Z := Z.of_nat (nat_of_ascii c) - 48.

(** The longest prefix of radix-10 digits, as digit values. *)
Fixpoint digitsPrefix (s : string) : list Z :=
  match s with
  | String c r => if isDigit c then digitValue c :: digitsPrefix r else []
  | EmptyString => []
  end.

Definition digitsValue (ds : list Z) : Z :=
  foldl (λ acc d, 10 * acc + d)%Z 0%Z ds.

(** [parseInt(s, 10)]: strip leading white space, read an optional sign,
    read the longest run of decimal digits; the result is NaN ([None]) when
    that run is empty.  Whatever follows the digits is ignored.  The value
    given here is the integer that the digits denote; JavaScript gives the
    nearest double, which is that integer when it is a safe integer (below
    2^53 in magnitude) and may differ from it beyond. *)
Definition parseInt (s : string) : option Z :=
  let s1 := trimStart s in
  let '(sign, s2) :=
    match s1 with
    | String c r =>
        if Ascii.eqb c "-" then ((-1)%Z, r)
        else if Ascii.eqb c "+" then (1%Z, r)
        else (1%Z, s1)
    | EmptyString => (1%Z, s1)
    end in
  match digitsPrefix s2 with
  | [] => None
  | ds => Some (sign * digitsValue ds)%Z
  end.

(** [parseInt(v, 10)] on a value that may be [undefined]: ToString gives
    the text [undefined], which has no digits. *)
Definition parseIntArg (v : option string) : option Z :=
  parseInt (default "undefined" v).

(** [`${n}`] for an integer [n] below 10^21 in magnitude: its decimal
    numeral.  (From 10^21 on JavaScript prints an exponent form.) *)
Definition numberToString (n : Z) : string := pretty n.

(** Values of a parsed JSON body. *)
#[local] Unset Elimination Schemes.
Inductive json : Type :=
  | JNull
  | JBool (b : bool)
  | JNumber (n : Z)
  | JString (s : string)
  | JArray (l : list json)
  | JObject (l : list (string * json)).
#[local] Set Elimination Schemes.

(** [typeof v === 'string' ? v : null], with [None] for an absent property
    on the way in and for [null] on the way out. *)
Definition stringOrNull (v : option json) : option string :=
  match v with
  | Some (JString s) => Some s
  | _ => None
  end.

End Js.

(** ** Data model *)

(** The columns of a row of table [inventory]; the primary key is the key
    of the table map. *)
Record row : Type := Row {
  col_inventory_name : string;
  col_description : string;
  col_photo_filename : option string
}.

(** A row as a query hands it to a callback. *)
Record item : Type := Item {
  id : Z;
  inventory_name : string;
  description : string;
  photo_filename : option string
}.

Definition item_of_row (k : Z) (r : row) : item :=
  Item k (col_inventory_name r) (col_description r) (col_photo_filename r).

(** The wire shape. *)
Record dto : Type := Dto {
  dto_id : Z;
  dto_inventory_name : string;
  dto_description : string;
  photoUrl : option string
}.

Definition photoUrlOf (i : Z) : string :=
  "/inventory/" +:+ Js.numberToString i +:+ "/photo".

(** [itemToDto]: rows carry no [photoFilename] property, so the first
    operand of [||] is undefined and the file name is [photo_filename] when
    that is truthy, [null] otherwise. *)
Definition itemToDto (it : item) : dto :=
  let photoFilename :=
    if Js.truthy_opt (photo_filename it) then photo_filename it else None in
  Dto (id it) (inventory_name it) (description it)
      (if Js.truthy_opt photoFilename then Some (photoUrlOf (id it)) else None).

(** ** Requests and replies *)

(** The file part [photo] of a multipart request, as multer's disk storage
    handles it: the bytes, and the random file name multer draws for them
    in the cache directory. *)
Record upload : Type := Upload {
  upload_filename : string;
  upload_bytes : string
}.

(** What the handlers read from a request: method and path segments, the
    body as [express.json] parses it (update route), the text fields of a
    urlencoded or multipart form (register and search routes), and the
    optional [photo] file part. *)
Record request : Type := Request {
  method : string;
  path : list string;
  json_body : gmap string Js.json;
  form : gmap string string;
  photo : option upload
}.

Inductive payload : Type :=
  | JsonError (error : string)      (* res.json({ error }) *)
  | JsonItem (d : dto)              (* res.json(itemToDto(..)) *)
  | JsonItems (ds : list dto)       (* res.json(rows.map(itemToDto)) *)
  | Text (s : string)               (* res.send(text), res.sendStatus *)
  | ImageJpeg (bytes : string)      (* the piped read stream *)
  | DefaultPage.                    (* the page Express sends by itself *)

(** The outcome of a request: a reply; or a TypeError thrown inside a query
    callback ([itemToDto(rows[0])] on an empty result), in which case no
    reply is sent; or the request is answered by a component outside
    main.js (the documentation UI, a static form file). *)
Inductive response : Type :=
  | Reply (status : Z) (body : payload)
  | Uncaught
  | External (component : string).

Definition status_of (r : response) : option Z :=
  match r with Reply s _ => Some s | _ => None end.

(** The error taxonomy of the HTTP surface. *)
Definition ValidationError (r : response) : Prop := status_of r = Some 400%Z.
Definition NotFound (r : response) : Prop := status_of r = Some 404%Z.
Definition MethodNotAllowed (r : response) : Prop := status_of r = Some 405%Z.
Definition InternalError (r : response) : Prop := status_of r = Some 500%Z.

(** ** The world: record store, blob store, query outcomes *)

Record world : Type := World {
  inventory : gmap Z row;          (* table inventory, by primary key *)
  auto_increment : Z;              (* next AUTO_INCREMENT value *)
  cache : gmap string string;      (* options.cache: file name to bytes *)
  db_errors : list bool            (* coming queries: true calls back with err *)
}.

Definition set_inventory (t : gmap Z row) (w : world) : world :=
  World t (auto_increment w) (cache w) (db_errors w).
Definition set_cache (c : gmap string string) (w : world) : world :=
  World (inventory w) (auto_increment w) c (db_errors w).

(** State monad over the world, with stdpp's [x ← m; k] notation. *)
Definition M (A : Type) : Type := world → A * world.

#[global] Instance M_ret : MRet M := λ A (a : A) w, (a, w).
#[global] Instance M_bind : MBind M :=
  λ A B (f : A → M B) (m : M A) w, let '(a, w') := m w in f a w'.

Definition get_world : M world := λ w, (w, w).
Definition modify (f : world → world) : M unit := λ w, (tt, f w).

(** Result of one [dbPool.query]: the callback's [err], or its rows. *)
Inductive query_result (A : Type) : Type :=
  | QErr
  | QOk (a : A).
Arguments QErr {A}.
Arguments QOk {A} a.

(** Each query consumes one announced outcome; none left means success. *)
Definition query_fails : M bool := λ w,
  match db_errors w with
  | [] => (false, w)
  | b :: l => (b, World (inventory w) (auto_increment w) (cache w) l)
  end.

Definition query {A : Type} (run : M (query_result A)) : M (query_result A) :=
  failed ← query_fails;
  if failed : bool then mret QErr else run.

(** *** Record store

    Modelled from the spec: the schema of table [inventory] is not part of
    the sources; it is [inventory(id PK autoincrement, inventory_name,
    description, photo_filename nullable)].  Each definition below is one
    SQL statement of main.js. *)

(** [SELECT ... FROM inventory WHERE id = ?]: the rows hold at most one
    item, [None] is the empty result. *)
Definition selectById (i : Z) : M (query_result (option item)) :=
  query (w ← get_world; mret (QOk (item_of_row i <$> inventory w !! i))).

(** [ORDER BY id] *)
Definition id_le (a b : item) : Prop := (id a ≤ id b)%Z.
#[global] Instance id_le_dec a b : Decision (id_le a b) := Z_le_dec _ _.

(** [SELECT ... FROM inventory ORDER BY id] *)
Definition selectAll : M (query_result (list item)) :=
  query (w ← get_world;
         mret (QOk (merge_sort id_le
                      ((λ kr, item_of_row kr.1 kr.2)
                         <$> map_to_list (inventory w))))).

(** [INSERT INTO inventory (inventory_name, description, photo_filename)
    VALUES (?, ?, ?)]: the key is the AUTO_INCREMENT value; a key already in
    use is a duplicate-entry error.  The result is [insertId]. *)
Definition insertRow (name desc : string) (file : option string)
  : M (query_result Z) :=
  query (λ w,
    let k := auto_increment w in
    match inventory w !! k with
    | Some _ => (QErr, w)
    | None =>
        (QOk k, World (<[k := Row name desc file]> (inventory w)) (k + 1)%Z
                      (cache w) (db_errors w))
    end).

(** SQL [COALESCE(?, column)] *)
Definition coalesce (param : option string) (column : string) : string :=
  default column param.

(** [UPDATE inventory SET inventory_name = COALESCE(?, inventory_name),
    description = COALESCE(?, description) WHERE id = ?] *)
Definition updateColumns (i : Z) (name desc : option string)
  : M (query_result unit) :=
  query (modify (λ w, set_inventory
           (alter (λ r, Row (coalesce name (col_inventory_name r))
                            (coalesce desc (col_description r))
                            (col_photo_filename r)) i (inventory w)) w);;
         mret (QOk tt)).

(** [UPDATE inventory SET photo_filename = ? WHERE id = ?] *)
Definition updatePhotoFilename (i : Z) (file : string)
  : M (query_result unit) :=
  query (modify (λ w, set_inventory
           (alter (λ r, Row (col_inventory_name r) (col_description r)
                            (Some file)) i (inventory w)) w);;
         mret (QOk tt)).

(** [DELETE FROM inventory WHERE id = ?] *)
Definition deleteRow (i : Z) : M (query_result unit) :=
  query (modify (λ w, set_inventory (delete i (inventory w)) w);;
         mret (QOk tt)).

(** *** Blob store: the files of the cache directory, by base name *)

(** [fs.existsSync(path.join(options.cache, name))] *)
Definition existsSync (name : string) : M bool :=
  w ← get_world; mret (bool_decide (is_Some (cache w !! name))).

(** [fs.unlink(path, () => {})]: the file is removed if it is there; an
    error is dropped by the empty callback. *)
Definition unlink (name : string) : M unit :=
  modify (λ w, set_cache (delete name (cache w)) w).

(** [fs.createReadStream(filePath)] of a file that exists *)
Definition readStream (name : string) : M string :=
  w ← get_world; mret (default EmptyString (cache w !! name)).

(** [upload.single('photo')]: multer writes the file part into the cache
    directory under its generated name before the handler runs; the result
    is [path.basename(req.file.path)], or [None] when [req.file] is
    undefined. *)
Definition uploadSingle (r : request) : M (option string) :=
  match photo r with
  | Some u =>
      modify (λ w, set_cache
                (<[upload_filename u := upload_bytes u]> (cache w)) w);;
      mret (Some (upload_filename u))
  | None => mret None
  end.

(** [if (req.file) fs.unlink(req.file.path, () => {})] *)
Definition unlinkUpload (file : option string) : M unit :=
  match file with
  | Some f => unlink f
  | None => mret tt
  end.

(** ** Route handlers *)

Definition internalError : response := Reply 500 (JsonError "internal error").
Definition invalidId : response := Reply 400 (JsonError "invalid id").
Definition notFound : response := Reply 404 (JsonError "not found").
Definition photoNotFound : response := Reply 404 (JsonError "photo not found").

(** [res.status(code).json(itemToDto(rows[0]))]; on an empty result
    [rows[0]] is undefined and [itemToDto] throws. *)
Definition jsonFirst (code : Z) (rows : option item) : response :=
  match rows with
  | Some it => Reply code (JsonItem (itemToDto it))
  | None => Uncaught
  end.

(** [app.get('/inventory')] *)
Definition listItems : M response :=
  r ← selectAll;
  match r with
  | QErr => mret internalError
  | QOk rows => mret (Reply 200 (JsonItems (itemToDto <$> rows)))
  end.

(** [app.get('/inventory/:id')] *)
Definition getById (idParam : string) : M response :=
  match Js.parseInt idParam with
  | None => mret invalidId
  | Some i =>
      r ← selectById i;
      match r with
      | QErr => mret internalError
      | QOk None => mret notFound
      | QOk (Some it) => mret (Reply 200 (JsonItem (itemToDto it)))
      end
  end.

(** [app.put('/inventory/:id')] *)
Definition updateMetadata (idParam : string) (body : gmap string Js.json)
  : M response :=
  match Js.parseInt idParam with
  | None => mret invalidId
  | Some i =>
      let inventory_name := body !! "inventory_name" in
      let description := body !! "description" in
      existing ← selectById i;
      match existing with
      | QErr => mret internalError
      | QOk None => mret notFound
      | QOk (Some _) =>
          r2 ← updateColumns i (Js.stringOrNull inventory_name)
                               (Js.stringOrNull description);
          match r2 with
          | QErr => mret internalError
          | QOk _ =>
              r3 ← selectById i;
              match r3 with
              | QErr => mret internalError
              | QOk rows => mret (jsonFirst 200 rows)
              end
          end
      end
  end.

(** [app.get('/inventory/:id/photo')] *)
Definition getPhoto (idParam : string) : M response :=
  match Js.parseInt idParam with
  | None => mret invalidId
  | Some i =>
      r ← selectById i;
      match r with
      | QErr => mret internalError
      | QOk None => mret photoNotFound
      | QOk (Some it) =>
          match photo_filename it with
          | None => mret photoNotFound
          | Some photoFilename =>
              if negb (Js.truthy photoFilename) then mret photoNotFound
              else
                there ← existsSync photoFilename;
                if negb there then mret photoNotFound
                else
                  bytes ← readStream photoFilename;
                  mret (Reply 200 (ImageJpeg bytes))
          end
      end
  end.

(** The old photo of [app.put('/inventory/:id/photo')]:
    [if (item.photo_filename) { if (fs.existsSync(oldPath)) fs.unlink(..) }] *)
Definition unlinkOld (it : item) : M unit :=
  match photo_filename it with
  | Some old =>
      if Js.truthy old then
        there ← existsSync old;
        if there : bool then unlink old else mret tt
      else mret tt
  | None => mret tt
  end.

(** [app.put('/inventory/:id/photo')], after [upload.single('photo')];
    [file] is the base name of [req.file.path]. *)
Definition replacePhoto (idParam : string) (file : option string)
  : M response :=
  match Js.parseInt idParam with
  | None => unlinkUpload file;; mret invalidId
  | Some i =>
      match file with
      | None => mret (Reply 400 (JsonError "photo file is required"))
      | Some f =>
          r ← selectById i;
          match r with
          | QErr => unlink f;; mret internalError
          | QOk None => unlink f;; mret notFound
          | QOk (Some it) =>
              unlinkOld it;;
              let newPhotoFilename := f in
              r2 ← updatePhotoFilename i newPhotoFilename;
              match r2 with
              | QErr => unlink f;; mret internalError
              | QOk _ =>
                  r3 ← selectById i;
                  match r3 with
                  | QErr => mret internalError
                  | QOk updatedRows => mret (jsonFirst 200 updatedRows)
                  end
              end
          end
      end
  end.

(** *** The search page *)

Definition nl : string := String "010" EmptyString.
Definition dq : string := String "034" EmptyString.

(** The [photoBlock] template literal. *)
Definition photoBlockOf (photoUrl name : string) : string :=
  nl +:+
  "          <p>" +:+ nl +:+
  "            <img src=" +:+ dq +:+ photoUrl +:+ dq +:+ nl +:+
  "                 alt=" +:+ dq +:+ "photo of " +:+ name +:+ dq +:+ nl +:+
  "                 style=" +:+ dq +:+ "max-width:300px;" +:+ dq +:+ ">" +:+ nl +:+
  "          </p>" +:+ nl +:+
  "        ".

(** [`Photo link: <a href="${photoUrl}">${photoUrl}</a>`] *)
Definition photoLinkOf (photoUrl : string) : string :=
  "Photo link: <a href=" +:+ dq +:+ photoUrl +:+ dq +:+ ">"
  +:+ photoUrl +:+ "</a>".

Definition pageHead : string :=
  nl +:+
  "        <!DOCTYPE html>" +:+ nl +:+
  "        <html>" +:+ nl +:+
  "        <head>" +:+ nl +:+
  "          <meta charset=" +:+ dq +:+ "utf-8" +:+ dq +:+ ">" +:+ nl +:+
  "          <title>Search result</title>" +:+ nl +:+
  "        </head>" +:+ nl +:+
  "        <body>" +:+ nl +:+
  "          <h1>Search result</h1>" +:+ nl +:+
  "          <p><strong>ID:</strong> ".

Definition pageName : string :=
  "</p>" +:+ nl +:+
  "          <p><strong>Name:</strong> ".

Definition pageDescription : string :=
  "</p>" +:+ nl +:+
  "          <p><strong>Description:</strong><br>".

Definition pagePhoto : string :=
  "</p>" +:+ nl +:+
  "          ".

Definition pageFoot : string :=
  nl +:+
  "          <p><a href=" +:+ dq +:+ "/SearchForm.html" +:+ dq
  +:+ ">Back to search</a></p>" +:+ nl +:+
  "        </body>" +:+ nl +:+
  "        </html>" +:+ nl +:+
  "      ".

(** The template literal passed to [res.send]. *)
Definition pageOf (idText name description photoBlock : string) : string :=
  pageHead +:+ idText +:+ pageName +:+ name +:+ pageDescription
  +:+ description +:+ pagePhoto +:+ photoBlock +:+ pageFoot.

(** The body of the last callback of [app.post('/search')]: [has_photo] is
    [req.body.has_photo !== undefined]. *)
Definition searchPage (it : item) (has_photo : bool) : string :=
  let description0 :=
    if Js.truthy (description it) then description it else EmptyString in
  if has_photo && Js.truthy_opt (photo_filename it) then
    let photoUrl := photoUrlOf (id it) in
    let description1 :=
      if Js.truthy description0 then description0 +:+ "<br>"
      else description0 in
    let description2 := description1 +:+ photoLinkOf photoUrl in
    pageOf (Js.numberToString (id it)) (inventory_name it) description2
           (photoBlockOf photoUrl (inventory_name it))
  else
    pageOf (Js.numberToString (id it)) (inventory_name it) description0
           EmptyString.

(** [app.post('/search')] *)
Definition searchRender (body : gmap string string) : M response :=
  match Js.parseIntArg (body !! "id") with
  | None => mret (Reply 400 (Text "Invalid id"))
  | Some i =>
      r ← selectById i;
      match r with
      | QErr => mret (Reply 500 (Text "Internal error"))
      | QOk None => mret (Reply 404 (Text "Item not found"))
      | QOk (Some it) =>
          mret (Reply 200
                  (Text (searchPage it
                           (bool_decide (is_Some (body !! "has_photo"))))))
      end
  end.

(** [!name || name.trim() === ''] *)
Definition nameMissing (name : option string) : bool :=
  match name with
  | Some n => negb (Js.truthy n) || String.eqb (Js.trim n) EmptyString
  | None => true
  end.

(** [app.post('/register')], after [upload.single('photo')]. *)
Definition register (file : option string) (body : gmap string string)
  : M response :=
  let name := body !! "inventory_name" in
  let description :=
    match body !! "description" with
    | Some d => if Js.truthy d then d else EmptyString
    | None => EmptyString
    end in
  if nameMissing name then
    unlinkUpload file;;
    mret (Reply 400 (JsonError "inventory_name is required"))
  else
    let photoFilename := file in
    r ← insertRow (Js.trim (default EmptyString name)) description
                  photoFilename;
    match r with
    | QErr => unlinkUpload file;; mret internalError
    | QOk insertedId =>
        r2 ← selectById insertedId;
        match r2 with
        | QErr => mret internalError
        | QOk rows => mret (jsonFirst 201 rows)
        end
    end.

(** The photo of a deleted item:
    [if (item.photo_filename) { if (fs.existsSync(filePath)) fs.unlink(..) }] *)
Definition unlinkPhoto (it : item) : M unit := unlinkOld it.

(** [app.delete('/inventory/:id')] *)
Definition deleteItem (idParam : string) : M response :=
  match Js.parseInt idParam with
  | None => mret invalidId
  | Some i =>
      r ← selectById i;
      match r with
      | QErr => mret internalError
      | QOk None => mret notFound
      | QOk (Some it) =>
          r2 ← deleteRow i;
          match r2 with
          | QErr => mret internalError
          | QOk _ => unlinkPhoto it;; mret (Reply 200 (JsonItem (itemToDto it)))
          end
      end
  end.

(** ** Express dispatch *)

(** [res.sendStatus(405)] *)
Definition methodNotAllowed : response := Reply 405 (Text "Method Not Allowed").

(** No route matched: Express answers 404 with its own page. *)
Definition noRoute : response := Reply 404 DefaultPage.

(** [['GET', 'PUT'].includes(req.method)] *)
Definition includes (methods : list string) (m : string) : bool :=
  bool_decide (m ∈ methods).

(** Express compiles each route path to a regular expression with the [i]
    flag ([case sensitive routing] is off in [express()]), so the literal
    parts of a path match in any letter case; the routes are written with
    ASCII letters, and no code unit from 128 on folds to one of those. *)
Definition foldCase (c : ascii) : ascii :=
  let n := nat_of_ascii c in
  if Nat.leb 65 n && Nat.leb n 90 then ascii_of_nat (n + 32) else c.

Fixpoint foldCases (s : string) : string :=
  match s with
  | String c r => String (foldCase c) (foldCases r)
  | EmptyString => EmptyString
  end.

Definition segmentIs (literal segment : string) : bool :=
  String.eqb (foldCases segment) (foldCases literal).

(** The routes in registration order: for each recognised path the
    [app.all] guard runs first and ends the request with 405 unless the
    method is listed; then the handler of the method runs, behind multer
    where the route has [upload.single('photo')].  The path is given by its
    segments, the non-empty parts between the slashes ([strict routing] is
    off, so a closing slash does not count); a segment that binds [:id] is
    given decoded.  [/docs] and the two static forms are answered by other
    components. *)
Definition app (r : request) : M response :=
  let m := method r in
  match path r with
  | [a] =>
      if segmentIs "docs" a then mret (External "swagger-ui") else
      if segmentIs "register" a then
        if String.eqb m "POST" then
          file ← uploadSingle r; register file (form r)
        else mret methodNotAllowed
      else if segmentIs "inventory" a then
        if String.eqb m "GET" then listItems else mret methodNotAllowed
      else if segmentIs "search" a then
        if String.eqb m "POST" then searchRender (form r)
        else mret methodNotAllowed
      else if (segmentIs "RegisterForm.html" a
               || segmentIs "SearchForm.html" a)
              && (String.eqb m "GET" || String.eqb m "HEAD") then
        mret (External (if segmentIs "RegisterForm.html" a
                        then "RegisterForm.html" else "SearchForm.html"))
      else mret noRoute
  | [a; idParam] =>
      if segmentIs "docs" a then mret (External "swagger-ui") else
      if segmentIs "inventory" a then
        if includes ["GET"; "PUT"; "DELETE"] m then
          if String.eqb m "GET" then getById idParam
          else if String.eqb m "PUT" then updateMetadata idParam (json_body r)
          else deleteItem idParam
        else mret methodNotAllowed
      else mret noRoute
  | [a; idParam; b] =>
      if segmentIs "docs" a then mret (External "swagger-ui") else
      if segmentIs "inventory" a && segmentIs "photo" b then
        if includes ["GET"; "PUT"] m then
          if String.eqb m "GET" then getPhoto idParam
          else file ← uploadSingle r; replacePhoto idParam file
        else mret methodNotAllowed
      else mret noRoute
  | a :: _ =>
      if segmentIs "docs" a then mret (External "swagger-ui")
      else mret noRoute
  | [] => mret noRoute
  end.

(** * Vocabulary of the properties *)

(** ** Strings *)

Fixpoint allWhiteSpace (s : string) : bool :=
  match s with
  | String c r => Js.isWhiteSpace c && allWhiteSpace r
  | EmptyString => true
  end.

Definition headIsWhiteSpace (s : string) : bool :=
  match s with String c _ => Js.isWhiteSpace c | EmptyString => false end.

Fixpoint lastIsWhiteSpace (s : string) : bool :=
  match s with
  | EmptyString => false
  | String c EmptyString => Js.isWhiteSpace c
  | String _ r => lastIsWhiteSpace r
  end.

(** The sign that [parseInt] reads over. *)
Definition stripSign (s : string) : string :=
  match s with
  | String c r => if Ascii.eqb c "-" || Ascii.eqb c "+" then r else s
  | EmptyString => s
  end.

Definition startsWithDigit (s : string) : bool :=
  match s with String c _ => Js.isDigit c | EmptyString => false end.

(** A numeric string in the strict sense: decimal digits, at least one. *)
Fixpoint allDigits (s : string) : bool :=
  match s with
  | String c r => Js.isDigit c && allDigits r
  | EmptyString => true
  end.

Definition isNumericString (s : string) : bool :=
  Js.truthy s && allDigits s.

(** The digits at the head of a string. *)
Fixpoint takeDigits (s : string) : string :=
  match s with
  | String c r => if Js.isDigit c then String c (takeDigits r) else EmptyString
  | EmptyString => EmptyString
  end.

(** An id cut down to the minus sign, if it has one, and the digits that
    follow the leading white space and the sign: [" +12abc"] becomes
    ["12"], ["-7 "] becomes ["-7"]. *)
Definition signAndDigits (s : string) : string :=
  match Js.trimStart s with
  | String c r =>
      if Ascii.eqb c "-" then String c (takeDigits r)
      else if Ascii.eqb c "+" then takeDigits r
      else takeDigits (String c r)
  | EmptyString => EmptyString
  end.

(** ** Decimal numerals *)

(** A decimal numeral read strictly, character by character: an optional
    minus sign, then digits and nothing else, at least one. *)
Definition decimalDigit (c : ascii) : option Z :=
  if Ascii.eqb c "0" then Some 0%Z
  else if Ascii.eqb c "1" then Some 1%Z
  else if Ascii.eqb c "2" then Some 2%Z
  else if Ascii.eqb c "3" then Some 3%Z
  else if Ascii.eqb c "4" then Some 4%Z
  else if Ascii.eqb c "5" then Some 5%Z
  else if Ascii.eqb c "6" then Some 6%Z
  else if Ascii.eqb c "7" then Some 7%Z
  else if Ascii.eqb c "8" then Some 8%Z
  else if Ascii.eqb c "9" then Some 9%Z
  else None.

Fixpoint readDigits (acc : Z) (s : string) : option Z :=
  match s with
  | String c r =>
      match decimalDigit c with
      | Some d => readDigits (10 * acc + d) r
      | None => None
      end
  | EmptyString => Some acc
  end.

Definition readDecimal (s : string) : option Z :=
  match s with
  | EmptyString => None
  | String c r =>
      if Ascii.eqb c "-" then
        match r with
        | EmptyString => None
        | String _ _ => Z.opp <$> readDigits 0 r
        end
      else readDigits 0 s
  end.

(** The decimal numeral of [n]: it reads as [n] and has no zero in front
    of its digits, as [7] and [-12] and unlike [007] and [-0]. *)
Definition leadingZero (s : string) : bool :=
  match s with
  | String c (String d _) =>
      if Ascii.eqb c "-" then Ascii.eqb d "0" else Ascii.eqb c "0"
  | _ => false
  end.

Definition decimalOf (n : Z) (s : string) : Prop :=
  readDecimal s = Some n ∧ leadingZero s = false.

(** The integers that a JavaScript number holds exactly, from
    [-(2^53 - 1)] to [2^53 - 1] (Number.isSafeInteger).  On these
    [parseInt] and the template literal work on the integer itself. *)
Definition maxSafeInteger : Z := 9007199254740991.

Definition safeInteger (n : Z) : Prop :=
  (- maxSafeInteger ≤ n ≤ maxSafeInteger)%Z.

(** ** Worlds *)

(** The next [n] queries call back without [err]. *)
Definition queriesSucceed (n : nat) (w : world) : bool :=
  forallb negb (take n (db_errors w)).

(** The service starts on an empty table, with whatever the cache directory
    holds; then requests are served, and the database may fail at any
    query. *)
Inductive reachable : world → Prop :=
  | reachable_start c : reachable (World ∅ 1 c [])
  | reachable_request w r : reachable w → reachable (app r w).2
  | reachable_outcomes w l :
      reachable w →
      reachable (World (inventory w) (auto_increment w) (cache w) l).

(** [holds P w]: the table of [w] and its AUTO_INCREMENT counter satisfy
    [P]; [keeps P m]: running [m] keeps that. *)
Definition holds (P : gmap Z row → Z → Prop) (w : world) : Prop :=
  P (inventory w) (auto_increment w).

Definition keeps (P : gmap Z row → Z → Prop) {A : Type} (m : M A) : Prop :=
  ∀ w, holds P w → holds P (m w).2.

(** Every key in use is below the AUTO_INCREMENT counter. *)
Definition keysBelowCounter (t : gmap Z row) (next : Z) : Prop :=
  ∀ k, is_Some (t !! k) → (k < next)%Z.

(** Every stored [inventory_name] is non-empty. *)
Definition namesNonEmpty (t : gmap Z row) (next : Z) : Prop :=
  ∀ k r, t !! k = Some r → col_inventory_name r ≠ EmptyString.

(** ** The update *)

(** The row that the UPDATE of [PUT /inventory/:id] leaves. *)
Definition updatedRow (body : gmap string Js.json) (r : row) : row :=
  Row (coalesce (Js.stringOrNull (body !! "inventory_name"))
                (col_inventory_name r))
      (coalesce (Js.stringOrNull (body !! "description")) (col_description r))
      (col_photo_filename r).

(** ** HTML escaping *)

(** The characters that are significant in HTML text and attribute values,
    and their entities. *)
Definition escapeChar (c : ascii) : string :=
  if Ascii.eqb c "&" then "&amp;"
  else if Ascii.eqb c "<" then "&lt;"
  else if Ascii.eqb c ">" then "&gt;"
  else if Ascii.eqb c "034" then "&quot;"
  else if Ascii.eqb c "'" then "&#39;"
  else String c EmptyString.

Fixpoint escapeHtml (s : string) : string :=
  match s with
  | String c r => escapeChar c +:+ escapeHtml r
  | EmptyString => EmptyString
  end.

Definition isMarkupChar (c : ascii) : bool :=
  Ascii.eqb c "&" || Ascii.eqb c "<" || Ascii.eqb c ">"
  || Ascii.eqb c "034" || Ascii.eqb c "'".

Fixpoint markupFree (s : string) : bool :=
  match s with
  | String c r => negb (isMarkupChar c) && markupFree r
  | EmptyString => true
  end.

(** The page as the specification words it: every field of the item is
    HTML-escaped before it is embedded (the identifier is a number and has
    nothing to escape). *)
Definition searchPageEscaped (it : item) (has_photo : bool) : string :=
  searchPage (Item (id it) (escapeHtml (inventory_name it))
                   (escapeHtml (description it)) (photo_filename it))
             has_photo.

(** ** The interface table *)

(** The interface table: the recognised paths, by their segments, and the
    methods listed for each. *)
Definition listedMethods (segments : list string) : option (list string) :=
  match segments with
  | [a] =>
      if String.eqb a "register" then Some ["POST"]
      else if String.eqb a "inventory" then Some ["GET"]
      else if String.eqb a "search" then Some ["POST"]
      else None
  | [a; _] =>
      if String.eqb a "inventory" then Some ["GET"; "PUT"; "DELETE"]
      else None
  | [a; _; b] =>
      if String.eqb a "inventory" && String.eqb b "photo"
      then Some ["GET"; "PUT"]
      else None
  | _ => None
  end.

(** The same table as the [app.all] guards apply it: the literal segments
    in any letter case. *)
Definition guardedMethods (segments : list string) : option (list string) :=
  match segments with
  | [a] =>
      if segmentIs "register" a then Some ["POST"]
      else if segmentIs "inventory" a then Some ["GET"]
      else if segmentIs "search" a then Some ["POST"]
      else None
  | [a; _] =>
      if segmentIs "inventory" a then Some ["GET"; "PUT"; "DELETE"]
      else None
  | [a; _; b] =>
      if segmentIs "inventory" a && segmentIs "photo" b
      then Some ["GET"; "PUT"]
      else None
  | _ => None
  end.

(** ** Status codes *)

(** What a status code tells about the request. *)
Definition statusExplained (r : request) (code : Z) : Prop :=
  code ∈ [200; 201; 400; 404; 405; 500]%Z
  ∧ (code = 405%Z ↔
     ∃ ms, guardedMethods (path r) = Some ms ∧ method r ∉ ms)
  ∧ (code = 201%Z →
     method r = "POST" ∧ ∃ a, path r = [a] ∧ segmentIs "register" a = true).

(** One step of reading a decimal numeral, as in [Js.digitsValue]. *)
Definition decimalStep (acc d : Z) : Z := (10 * acc + d)%Z.

(** ** Scenarios *)

(** [POST /register] with name [Drill], then [PUT /inventory/1] with the
    body [{ inventory_name: '' }]. *)
Definition registerDrill : request :=
  Request "POST" ["register"] ∅ {["inventory_name" := "Drill"]} None.

Definition putEmptyName : request :=
  Request "PUT" ["inventory"; "1"]
          {["inventory_name" := Js.JString EmptyString]} ∅ None.

(** The world after the registration, and after the update. *)
Definition drillRegistered : world := (app registerDrill (World ∅ 1 ∅ [])).2.
Definition drillRenamed : world := (app putEmptyName drillRegistered).2.

(** Item 1 registered with photo file [old]; then
    [PUT /inventory/1/photo] with a new file, stored by multer as [new],
    while the database fails at the UPDATE (the second query). *)
Definition registerWithPhoto : request :=
  Request "POST" ["register"] ∅ {["inventory_name" := "Drill"]}
          (Some (Upload "old" "OLD BYTES")).

Definition putNewPhoto : request :=
  Request "PUT" ["inventory"; "1"; "photo"] ∅ ∅
          (Some (Upload "new" "NEW BYTES")).

(** The world after the registration, with the outcomes of the next two
    queries announced, and the world after the failed replacement. *)
Definition photoRegistered : world :=
  let w := (app registerWithPhoto (World ∅ 1 ∅ [])).2 in
  World (inventory w) (auto_increment w) (cache w) [false; true].
Definition photoReplaceFailed : world := (app putNewPhoto photoRegistered).2.

(** ** Effects and replies *)

(** [readOnly m]: running [m] changes neither the table and its counter
    nor the cache directory; it may consume announced query outcomes. *)
Definition readOnly {A : Type} (m : M A) : Prop :=
  ∀ w, inventory (m w).2 = inventory w
       ∧ auto_increment (m w).2 = auto_increment w
       ∧ cache (m w).2 = cache w.

(** [answers Q m]: whatever the world, the reply of [m] satisfies [Q]. *)
Definition answers (Q : response → Prop) (m : M response) : Prop :=
  ∀ w, Q (m w).1.

(** The status of the reply, if there is one, is among [codes]. *)
Definition statusIn (codes : list Z) (r : response) : Prop :=
  ∀ code, status_of r = Some code → code ∈ codes.

(** Every stored [inventory_name] satisfies [Q]. *)
Definition namesSatisfy (Q : string → Prop) (t : gmap Z row) (next : Z)
  : Prop :=
  ∀ k r, t !! k = Some r → Q (col_inventory_name r).

(** A name as [register] stores it: not empty, no white space at either
    end. *)
Definition trimmedName (n : string) : Prop :=
  n ≠ EmptyString
  ∧ headIsWhiteSpace n = false ∧ lastIsWhiteSpace n = false.

(** The request is [PUT /inventory/:id], in whatever letter case the
    path is written. *)
Definition isUpdate (r : request) : Prop :=
  ∃ a s, path r = [a; s] ∧ segmentIs "inventory" a = true ∧ method r = "PUT".

(** The worlds reached without serving a [PUT /inventory/:id]. *)
Inductive reachableWithoutUpdate : world → Prop :=
  | withoutUpdate_start c : reachableWithoutUpdate (World ∅ 1 c [])
  | withoutUpdate_request w r :
      reachableWithoutUpdate w → ¬ isUpdate r →
      reachableWithoutUpdate (app r w).2
  | withoutUpdate_outcomes w l :
      reachableWithoutUpdate w →
      reachableWithoutUpdate
        (World (inventory w) (auto_increment w) (cache w) l).

(** DTOs in the order of [ORDER BY id]. *)
Definition dtoIdLe (a b : dto) : Prop := (dto_id a ≤ dto_id b)%Z.

(** The row with another photo file. *)
Definition withPhoto (r : row) (file : option string) : row :=
  Row (col_inventory_name r) (col_description r) file.

(** * Properties *)

(** ** White space, [trim] and [parseInt] *)

Section Strings.

Implicit Types s l r : string.

Lemma append_nil r : EmptyString +:+ r = r.
Proof. reflexivity. Qed.

Lemma append_cons (c : ascii) l r : String c l +:+ r = String c (l +:+ r).
Proof. reflexivity. Qed.

Lemma allWhiteSpace_app l r :
  allWhiteSpace (l +:+ r) = allWhiteSpace l && allWhiteSpace r.
Proof.
  induction l as [|c l IH]; [done|].
  rewrite append_cons. simpl. rewrite IH. by rewrite andb_assoc.
Qed.

Lemma trimStart_prefix s :
  ∃ l, s = l +:+ Js.trimStart s ∧ allWhiteSpace l = true.
Proof.
  induction s as [|c s [l [Hs Hl]]]; simpl.
  - by exists EmptyString.
  - destruct (Js.isWhiteSpace c) eqn:Hc.
    + exists (String c l). rewrite append_cons. simpl. rewrite Hc, Hl.
      split; [by f_equal|done].
    + by exists EmptyString.
Qed.

Lemma trimEnd_suffix s :
  ∃ r, s = Js.trimEnd s +:+ r ∧ allWhiteSpace r = true.
Proof.
  induction s as [|c s [r [Hs Hr]]]; simpl.
  - by exists EmptyString.
  - destruct (Js.trimEnd s) as [|d t] eqn:Ht.
    + rewrite append_nil in Hs. subst r.
      destruct (Js.isWhiteSpace c) eqn:Hc.
      * exists (String c s). rewrite append_nil. simpl. by rewrite Hc, Hr.
      * exists s. by rewrite append_cons, append_nil.
    + exists r. split; [|done]. rewrite !append_cons. f_equal.
      by rewrite <- append_cons.
Qed.

Lemma trimStart_allWhiteSpace s :
  allWhiteSpace s = true → Js.trimStart s = EmptyString.
Proof.
  induction s as [|c s IH]; simpl; [done|].
  intros [Hc Hs]%andb_true_iff. rewrite Hc. auto.
Qed.

Lemma trimEnd_empty s :
  Js.trimEnd s = EmptyString ↔ allWhiteSpace s = true.
Proof.
  induction s as [|c s IH]; simpl; [done|].
  destruct (Js.trimEnd s) as [|d t] eqn:Ht.
  - destruct IH as [IH _]. rewrite IH by done.
    destruct (Js.isWhiteSpace c); simpl; split; done.
  - split; [done|]. intros [_ Hs]%andb_true_iff.
    apply IH in Hs. done.
Qed.

(** [s.trim() === ''] exactly when [s] is white space only. *)
Lemma trim_empty s : Js.trim s = EmptyString ↔ allWhiteSpace s = true.
Proof.
  unfold Js.trim. rewrite trimEnd_empty. split.
  - intros H. destruct (trimStart_prefix s) as [l [Hs Hl]].
    rewrite Hs, allWhiteSpace_app, Hl. exact H.
  - intros H. by rewrite (trimStart_allWhiteSpace s H).
Qed.

Lemma trimStart_head s : headIsWhiteSpace (Js.trimStart s) = false.
Proof.
  induction s as [|c s IH]; simpl; [done|].
  destruct (Js.isWhiteSpace c) eqn:Hc; [done|]. simpl. exact Hc.
Qed.

Lemma trimEnd_head s :
  headIsWhiteSpace s = false → headIsWhiteSpace (Js.trimEnd s) = false.
Proof.
  destruct s as [|c s]; simpl; [done|]. intros Hc.
  destruct (Js.trimEnd s); simpl; by rewrite ?Hc.
Qed.

Lemma trimEnd_last s : lastIsWhiteSpace (Js.trimEnd s) = false.
Proof.
  induction s as [|c s IH]; simpl; [done|].
  destruct (Js.trimEnd s) as [|d t] eqn:Ht.
  - destruct (Js.isWhiteSpace c) eqn:Hc; simpl; done.
  - exact IH.
Qed.

(** What [trim] does: it cuts a white-space prefix and a white-space
    suffix, and what is left neither starts nor ends with white space. *)
Lemma trim_surrounding s :
  ∃ l r, s = l +:+ Js.trim s +:+ r
         ∧ allWhiteSpace l = true ∧ allWhiteSpace r = true
         ∧ headIsWhiteSpace (Js.trim s) = false
         ∧ lastIsWhiteSpace (Js.trim s) = false.
Proof.
  destruct (trimStart_prefix s) as [l [Hs Hl]].
  destruct (trimEnd_suffix (Js.trimStart s)) as [r [Ht Hr]].
  exists l, r. unfold Js.trim. repeat split; try done.
  - by rewrite <- Ht.
  - apply trimEnd_head, trimStart_head.
  - apply trimEnd_last.
Qed.

(** [!name || name.trim() === ''] holds for an absent name, an empty name
    and a name of white space only, and for no other. *)
Lemma nameMissing_blank (name : option string) :
  nameMissing name = true
  ↔ name = None ∨ ∃ n, name = Some n ∧ allWhiteSpace n = true.
Proof.
  destruct name as [n|]; simpl; [|naive_solver].
  rewrite orb_true_iff, String.eqb_eq, trim_empty. split.
  - intros [H|H]; right; exists n; split; try done.
    by destruct n.
  - intros [|[? [[= <-] H]]]; [done|]. by right.
Qed.

(** [parseInt] is NaN exactly when what follows the white space and the
    sign does not start with a digit. *)
Lemma parseInt_NaN s :
  Js.parseInt s = None
  ↔ startsWithDigit (stripSign (Js.trimStart s)) = false.
Proof.
  unfold Js.parseInt, stripSign.
  destruct (Js.trimStart s) as [|c r]; simpl; [done|].
  destruct (Ascii.eqb c "-"); simpl.
  { destruct r as [|d r]; simpl; [done|]. by destruct (Js.isDigit d). }
  destruct (Ascii.eqb c "+"); simpl.
  { destruct r as [|d r]; simpl; [done|]. by destruct (Js.isDigit d). }
  by destruct (Js.isDigit c).
Qed.

(** A string of digits is never rejected. *)
Lemma parseInt_numeric s :
  isNumericString s = true → is_Some (Js.parseInt s).
Proof.
  unfold isNumericString. destruct s as [|c r]; simpl; [done|].
  intros [Hc _]%andb_true_iff.
  destruct (Js.parseInt (String c r)) eqn:H; [done|].
  apply parseInt_NaN in H. simpl in H.
  assert (Js.isWhiteSpace c = false) as Hw.
  { clear -Hc. by destruct c as [[] [] [] [] [] [] [] []]. }
  rewrite Hw in H. simpl in H.
  assert (Ascii.eqb c "-" || Ascii.eqb c "+" = false) as Hs.
  { clear -Hc. by destruct c as [[] [] [] [] [] [] [] []]. }
  rewrite Hs in H. simpl in H. congruence.
Qed.

End Strings.

(** ** Running requests *)

Ltac munfold :=
  unfold listItems, getById, updateMetadata, getPhoto, replacePhoto,
    searchRender, register, deleteItem, unlinkPhoto, unlinkOld,
    unlinkUpload, uploadSingle, existsSync, unlink, readStream, selectById,
    selectAll, insertRow, updateColumns, updatePhotoFilename, deleteRow,
    query, query_fails, modify, get_world, set_inventory, set_cache,
    mbind, M_bind, mret, M_ret in *.

(** Split the announced outcomes of the next queries, dropping the cases
    that [Hq : queriesSucceed _ _ = true] excludes. *)
Ltac outcomes l Hq :=
  destruct l as [|[] [|[] [|[] l]]]; try discriminate Hq.

Section Routes.

Variables (jb : gmap string Js.json) (f : gmap string string)
          (p : option upload).

Lemma app_register w :
  app (Request "POST" ["register"] jb f p) w
  = (file ← uploadSingle (Request "POST" ["register"] jb f p);
     register file f) w.
Proof. reflexivity. Qed.

Lemma app_list : app (Request "GET" ["inventory"] jb f p) = listItems.
Proof. reflexivity. Qed.

Lemma app_getById s : app (Request "GET" ["inventory"; s] jb f p) = getById s.
Proof. reflexivity. Qed.

Lemma app_updateMetadata s :
  app (Request "PUT" ["inventory"; s] jb f p) = updateMetadata s jb.
Proof. reflexivity. Qed.

Lemma app_deleteItem s :
  app (Request "DELETE" ["inventory"; s] jb f p) = deleteItem s.
Proof. reflexivity. Qed.

Lemma app_getPhoto s :
  app (Request "GET" ["inventory"; s; "photo"] jb f p) = getPhoto s.
Proof. reflexivity. Qed.

Lemma app_replacePhoto s w :
  app (Request "PUT" ["inventory"; s; "photo"] jb f p) w
  = (file ← uploadSingle (Request "PUT" ["inventory"; s; "photo"] jb f p);
     replacePhoto s file) w.
Proof. reflexivity. Qed.

Lemma app_searchRender :
  app (Request "POST" ["search"] jb f p) = searchRender f.
Proof. reflexivity. Qed.

End Routes.

(** *** Invariants of the record store

    [keeps P m]: running [m] keeps the property [P] of the table and its
    AUTO_INCREMENT counter.  The lemmas of this section hold for every [P];
    the statements that change the table are proved per invariant. *)
Section Keeps.

Variable P : gmap Z row → Z → Prop.

Lemma keeps_ret {A} (a : A) : keeps P (mret a).
Proof. by intros w H. Qed.

Lemma keeps_bind {A B} (m : M A) (k : A → M B) :
  keeps P m → (∀ a, keeps P (k a)) → keeps P (m ≫= k).
Proof.
  intros Hm Hk w H. unfold mbind, M_bind.
  specialize (Hm w H). destruct (m w) as [a w']. by apply Hk.
Qed.

Lemma keeps_query {A} (run : M (query_result A)) :
  keeps P run → keeps P (query run).
Proof.
  intros Hrun w H. unfold query, query_fails, mbind, M_bind.
  destruct (db_errors w) as [|[] l] eqn:Hl; simpl; try done.
  - by apply Hrun.
  - apply Hrun. exact H.
Qed.

Lemma keeps_selectById i : keeps P (selectById i).
Proof. unfold selectById. apply keeps_query. by intros w H. Qed.

Lemma keeps_selectAll : keeps P selectAll.
Proof. unfold selectAll. apply keeps_query. by intros w H. Qed.

Lemma keeps_cache (g : world → gmap string string) :
  keeps P (modify (λ w, set_cache (g w) w)).
Proof. by intros w H. Qed.

Lemma keeps_get_world : keeps P get_world.
Proof. by intros w H. Qed.

End Keeps.

Create HintDb keeps.
#[global] Hint Resolve keeps_ret keeps_selectById keeps_selectAll keeps_cache
  keeps_get_world : keeps.

(** One step through a handler: a leaf by the hints, a bind, or a case
    distinction on what the handler inspects. *)
Ltac keeps_step :=
  first
    [ solve [auto with keeps]
    | apply keeps_bind; [|intros ?]
    | match goal with
      | |- keeps _ (match ?x with _ => _ end) => destruct x
      end ].

Ltac keeps_handlers :=
  unfold listItems, getById, updateMetadata, getPhoto, replacePhoto,
    searchRender, deleteItem, unlinkPhoto, unlinkOld, unlinkUpload,
    uploadSingle, existsSync, unlink, readStream;
  repeat keeps_step.

Section KeysBelowCounter.

Lemma keys_insertRow name desc file :
  keeps keysBelowCounter (insertRow name desc file).
Proof.
  apply keeps_query. intros w H. cbv beta zeta.
  destruct (inventory w !! auto_increment w) eqn:Hk; simpl; [done|].
  intros k. unfold holds, keysBelowCounter in H. simpl.
  rewrite lookup_insert. case_decide as Hd.
  - intros _. lia.
  - intros Hs. specialize (H k Hs). lia.
Qed.

Lemma keys_alter (g : row → row) i :
  keeps keysBelowCounter
    (query (modify (λ w, set_inventory (alter g i (inventory w)) w);;
            mret (QOk tt))).
Proof.
  apply keeps_query. intros w H k. simpl.
  rewrite lookup_alter. case_decide; [subst k|]; intros Hs; apply H.
  - by apply fmap_is_Some in Hs.
  - done.
Qed.

Lemma keys_deleteRow i : keeps keysBelowCounter (deleteRow i).
Proof.
  apply keeps_query. intros w H k. simpl.
  rewrite lookup_delete. case_decide; [by intros []|apply H].
Qed.

Lemma keys_updateColumns i name desc :
  keeps keysBelowCounter (updateColumns i name desc).
Proof. apply keys_alter. Qed.

Lemma keys_updatePhotoFilename i file :
  keeps keysBelowCounter (updatePhotoFilename i file).
Proof. apply keys_alter. Qed.

#[local] Hint Resolve keys_insertRow keys_updateColumns
  keys_updatePhotoFilename keys_deleteRow : keeps.

Lemma keys_app r : keeps keysBelowCounter (app r).
Proof. unfold app, register. keeps_handlers. Qed.

Lemma reachable_keysBelowCounter w :
  reachable w → holds keysBelowCounter w.
Proof.
  induction 1 as [c|w r _ IH|w l _ IH].
  - intros k [x Hx]. simpl in Hx. by rewrite lookup_empty in Hx.
  - by apply keys_app.
  - exact IH.
Qed.

(** In a reachable world the AUTO_INCREMENT value is a fresh key. *)
Lemma reachable_fresh_key w :
  reachable w → inventory w !! auto_increment w = None.
Proof.
  intros H%reachable_keysBelowCounter.
  destruct (inventory w !! auto_increment w) eqn:Hk; [|done].
  assert (auto_increment w < auto_increment w)%Z by (apply H; eauto). lia.
Qed.

End KeysBelowCounter.

Section NamesNonEmpty.

Lemma names_insertRow name desc file :
  name ≠ EmptyString → keeps namesNonEmpty (insertRow name desc file).
Proof.
  intros Hname. apply keeps_query. intros w H. cbv beta zeta.
  destruct (inventory w !! auto_increment w) eqn:Hk; simpl; [done|].
  intros k r. simpl. rewrite lookup_insert. case_decide.
  - by intros [= <-].
  - apply H.
Qed.

Lemma names_updatePhotoFilename i file :
  keeps namesNonEmpty (updatePhotoFilename i file).
Proof.
  apply keeps_query. intros w H k r. simpl.
  rewrite lookup_alter. case_decide; [subst k|apply H].
  destruct (inventory w !! i) as [r0|] eqn:Hr; simpl; [|done].
  intros [= <-]. simpl. by apply (H i).
Qed.

Lemma names_deleteRow i : keeps namesNonEmpty (deleteRow i).
Proof.
  apply keeps_query. intros w H k r. simpl.
  rewrite lookup_delete. case_decide; [done|apply H].
Qed.

#[local] Hint Resolve names_updatePhotoFilename names_deleteRow : keeps.

(** [register] stores the trimmed name, and only when it is not blank. *)
Lemma names_register file body : keeps namesNonEmpty (register file body).
Proof.
  unfold register.
  destruct (nameMissing (body !! "inventory_name")) eqn:Hm.
  - keeps_handlers.
  - apply keeps_bind; [|intros ?; keeps_handlers].
    apply names_insertRow.
    destruct (body !! "inventory_name") as [n|]; [|done]. simpl in *.
    apply orb_false_iff in Hm as [_ Hm]. by apply String.eqb_neq in Hm.
Qed.

#[local] Hint Resolve names_register : keeps.

(** Every route but [PUT /inventory/:id] keeps the names non-empty. *)
Lemma names_app r : ¬ isUpdate r → keeps namesNonEmpty (app r).
Proof.
  intros Hput. unfold app.
  destruct (path r) as [|a [|s [|b [|c l]]]] eqn:Hp; try by keeps_handlers.
  destruct (segmentIs "docs" a); [keeps_handlers|].
  destruct (segmentIs "inventory" a) eqn:Ha; [|keeps_handlers].
  destruct (includes _ _); [|keeps_handlers].
  destruct (String.eqb (method r) "GET"); [keeps_handlers|].
  destruct (String.eqb (method r) "PUT") eqn:Hm; [|keeps_handlers].
  apply String.eqb_eq in Hm. destruct Hput. by exists a, s.
Qed.

End NamesNonEmpty.

(** ** Decimal numerals *)

Section NumberToString.

Lemma pretty_N_char_digit (d : N) :
  (d < 10)%N →
  Js.isDigit (pretty_N_char d) = true
  ∧ Js.digitValue (pretty_N_char d) = Z.of_N d.
Proof.
  intros Hd.
  assert (d = 0 ∨ d = 1 ∨ d = 2 ∨ d = 3 ∨ d = 4 ∨ d = 5 ∨ d = 6 ∨ d = 7
          ∨ d = 8 ∨ d = 9)%N as H by lia.
  repeat (destruct H as [->|H]; [by split|]). subst d. by split.
Qed.

Lemma digitsPrefix_digit (c : ascii) (s : string) :
  Js.isDigit c = true →
  Js.digitsPrefix (String c s) = Js.digitValue c :: Js.digitsPrefix s.
Proof. intros H. simpl. by rewrite H. Qed.

(** The digits that [pretty] puts in front of [s] are read back by
    [digitsPrefix], and their value is the number. *)
Lemma pretty_N_go_digits (x : N) (s : string) :
  ∃ ds, Js.digitsPrefix (pretty_N_go x s) = ds ++ Js.digitsPrefix s
        ∧ (∀ acc, foldl decimalStep acc ds
                  = (acc * 10 ^ Z.of_nat (length ds) + Z.of_N x)%Z)
        ∧ ((0 < x)%N → ds ≠ []).
Proof.
  revert s. induction (N.lt_wf_0 x) as [x _ IH]. intros s.
  assert (x = 0 ∨ 0 < x)%N as [->|Hx] by lia.
  { exists []. rewrite pretty_N_go_0. split_and!; [done| |lia].
    intros acc. simpl. lia. }
  rewrite pretty_N_go_step by done.
  destruct (pretty_N_char_digit (x `mod` 10)%N) as [Hd Hv];
    [by apply N.mod_lt|].
  destruct (IH (x `div` 10)%N) with (s := String (pretty_N_char (x `mod` 10)) s)
    as (ds & Hds & Hval & _); [by apply N.div_lt|].
  exists (ds ++ [Z.of_N (x `mod` 10)]). split_and!.
  - rewrite Hds, digitsPrefix_digit, Hv by done. by rewrite <- app_assoc.
  - intros acc. rewrite foldl_app, Hval, length_app. simpl. unfold decimalStep.
    rewrite Nat2Z.inj_add, Z.pow_add_r by lia.
    rewrite N2Z.inj_div, N2Z.inj_mod.
    pose proof (Z.div_mod (Z.of_N x) 10 ltac:(lia)). simpl (Z.of_nat 1).
    change (Z.of_N 10) with 10%Z. lia.
  - intros _. by destruct ds.
Qed.

Lemma digitsPrefix_head (s : string) :
  Js.digitsPrefix s ≠ [] → startsWithDigit s = true.
Proof. destruct s as [|c r]; simpl; [done|]. by destruct (Js.isDigit c). Qed.

Lemma digit_not_white_space (c : ascii) :
  Js.isDigit c = true →
  Js.isWhiteSpace c = false ∧ Ascii.eqb c "-" = false
  ∧ Ascii.eqb c "+" = false.
Proof. by destruct c as [[] [] [] [] [] [] [] []]. Qed.

(** [parseInt] on a string that starts with a digit. *)
Lemma parseInt_digits (s : string) :
  startsWithDigit s = true →
  Js.parseInt s = Some (Js.digitsValue (Js.digitsPrefix s)).
Proof.
  destruct s as [|c r]; [done|]. simpl. intros Hc.
  destruct (digit_not_white_space c Hc) as (Hw & Hm & Hp).
  unfold Js.parseInt. simpl. rewrite Hw, Hm, Hp. simpl. rewrite Hc.
  f_equal; lia.
Qed.

Lemma parseInt_minus (s : string) :
  startsWithDigit s = true →
  Js.parseInt ("-" +:+ s)
  = Some (- Js.digitsValue (Js.digitsPrefix s))%Z.
Proof.
  destruct s as [|c r]; [done|]. simpl. intros Hc.
  unfold Js.parseInt. simpl. rewrite Hc. f_equal; lia.
Qed.

Lemma pretty_N_parse (x : N) :
  (0 < x)%N →
  startsWithDigit (pretty_N_go x EmptyString) = true
  ∧ Js.digitsValue (Js.digitsPrefix (pretty_N_go x EmptyString)) = Z.of_N x.
Proof.
  intros Hx. destruct (pretty_N_go_digits x EmptyString) as (ds & Hds & Hval & Hne).
  simpl in Hds. rewrite app_nil_r in Hds. split.
  - apply digitsPrefix_head. rewrite Hds. by apply Hne.
  - rewrite Hds. unfold Js.digitsValue. fold decimalStep. rewrite Hval. lia.
Qed.

End NumberToString.

(** An identifier printed by a template literal is read back by
    [parseInt]. *)
Lemma parseInt_numberToString (i : Z) :
  Js.parseInt (Js.numberToString i) = Some i.
Proof.
  unfold Js.numberToString, pretty, pretty_Z.
  destruct i as [|x|x]; [reflexivity| |].
  - unfold pretty, pretty_positive, pretty, pretty_N.
    rewrite decide_False by done.
    destruct (pretty_N_parse (N.pos x)) as [Hd Hv]; [lia|].
    by rewrite parseInt_digits, Hv.
  - unfold pretty, pretty_positive, pretty, pretty_N.
    rewrite decide_False by done.
    destruct (pretty_N_parse (N.pos x)) as [Hd Hv]; [lia|].
    by rewrite parseInt_minus, Hv.
Qed.

Section Numerals.

Lemma decimalDigit_isDigit (c : ascii) :
  decimalDigit c = if Js.isDigit c then Some (Js.digitValue c) else None.
Proof. destruct c as [[] [] [] [] [] [] [] []]; vm_compute; reflexivity. Qed.

Lemma pretty_N_char_nonzero (d : N) :
  (0 < d < 10)%N → Ascii.eqb (pretty_N_char d) "0" = false.
Proof.
  intros Hd.
  assert (d = 1 ∨ d = 2 ∨ d = 3 ∨ d = 4 ∨ d = 5 ∨ d = 6 ∨ d = 7
          ∨ d = 8 ∨ d = 9)%N as H by lia.
  repeat (destruct H as [->|H]; [done|]). by subst d.
Qed.

(** The numeral that [pretty] writes for a positive number is read back
    strictly, digit by digit, as that number. *)
Lemma readDigits_pretty_N_go (x : N) (s : string) (acc : Z) :
  ∃ k : nat,
    readDigits acc (pretty_N_go x s)
    = readDigits (acc * 10 ^ Z.of_nat k + Z.of_N x) s.
Proof.
  revert s acc. induction (N.lt_wf_0 x) as [x _ IH]. intros s acc.
  assert (x = 0 ∨ 0 < x)%N as [->|Hx] by lia.
  { exists 0%nat. rewrite pretty_N_go_0. f_equal. simpl. lia. }
  rewrite pretty_N_go_step by done.
  destruct (pretty_N_char_digit (x `mod` 10)%N) as [Hd Hv];
    [by apply N.mod_lt|].
  destruct (IH (x `div` 10)%N ltac:(by apply N.div_lt)
              (String (pretty_N_char (x `mod` 10)) s) acc) as [k Hk].
  exists (S k). rewrite Hk. simpl readDigits.
  rewrite decimalDigit_isDigit, Hd, Hv. f_equal.
  rewrite Nat2Z.inj_succ, Z.pow_succ_r by lia.
  rewrite N2Z.inj_div, N2Z.inj_mod.
  pose proof (Z.div_mod (Z.of_N x) 10 ltac:(lia)).
  change (Z.of_N 10) with 10%Z. lia.
Qed.

(** It starts with a digit that is not zero. *)
Lemma pretty_N_go_head (x : N) (s : string) :
  (0 < x)%N →
  ∃ c r, pretty_N_go x s = String c r
         ∧ Js.isDigit c = true ∧ Ascii.eqb c "0" = false.
Proof.
  revert s. induction (N.lt_wf_0 x) as [x _ IH]. intros s Hx.
  rewrite pretty_N_go_step by done.
  destruct (N.eq_0_gt_0_cases (x `div` 10)) as [H0|Hpos].
  - rewrite H0, pretty_N_go_0. eexists _, _. split; [reflexivity|].
    assert (x < 10)%N as Hlt by (by apply N.div_small_iff in H0).
    rewrite N.mod_small by done. split.
    + by apply pretty_N_char_digit.
    + apply pretty_N_char_nonzero. lia.
  - apply IH; [by apply N.div_lt|done].
Qed.

(** The template literal writes the decimal numeral of an integer. *)
Lemma decimalOf_numberToString (i : Z) : decimalOf i (Js.numberToString i).
Proof.
  assert (∀ x : positive,
            ∃ c r, pretty_N_go (N.pos x) EmptyString = String c r
                   ∧ (c =? "-")%char = false ∧ (c =? "0")%char = false
                   ∧ readDigits 0 (String c r) = Some (Z.pos x)) as Hpos.
  { intros x.
    destruct (pretty_N_go_head (N.pos x) EmptyString ltac:(lia))
      as (c & r & Hs & Hd & Hz).
    destruct (readDigits_pretty_N_go (N.pos x) EmptyString 0) as [k Hk].
    destruct (digit_not_white_space c Hd) as (_ & Hm & _).
    exists c, r. split_and!; try done.
    rewrite <- Hs, Hk. simpl. f_equal; lia. }
  unfold decimalOf, Js.numberToString, pretty, pretty_Z.
  destruct i as [|x|x]; [by split| |];
    unfold pretty, pretty_positive, pretty, pretty_N;
    rewrite decide_False by done;
    destruct (Hpos x) as (c & r & -> & Hm & Hz & Hv).
  - unfold readDecimal, leadingZero. rewrite Hm, Hv, Hz.
    split; [done|by destruct r].
  - rewrite append_cons, append_nil. unfold readDecimal, leadingZero.
    change (("-" =? "-")%char) with true. cbv iota. rewrite Hv, Hz.
    by split.
Qed.

Lemma readDigits_digitsPrefix (s : string) (acc v : Z) :
  readDigits acc s = Some v →
  foldl decimalStep acc (Js.digitsPrefix s) = v.
Proof.
  revert acc. induction s as [|c r IH]; intros acc; simpl.
  - by intros [= <-].
  - rewrite decimalDigit_isDigit. destruct (Js.isDigit c); [|done].
    simpl. apply IH.
Qed.

Lemma readDigits_head (c : ascii) (r : string) (acc v : Z) :
  readDigits acc (String c r) = Some v → Js.isDigit c = true.
Proof.
  simpl. rewrite decimalDigit_isDigit. by destruct (Js.isDigit c).
Qed.

(** What reads strictly as [n] is read by [parseInt] as [n]. *)
Lemma readDecimal_parseInt (t : string) (n : Z) :
  readDecimal t = Some n → Js.parseInt t = Some n.
Proof.
  destruct t as [|c r]; [done|]. unfold readDecimal.
  destruct (Ascii.eqb c "-") eqn:Hc.
  - apply Ascii.eqb_eq in Hc. subst c. destruct r as [|d r]; [done|].
    intros (m & Hm & ->)%fmap_Some.
    change (String "-" (String d r)) with ("-" +:+ String d r).
    rewrite parseInt_minus by (simpl; by eapply readDigits_head).
    apply readDigits_digitsPrefix in Hm. unfold Js.digitsValue.
    fold decimalStep. by rewrite Hm.
  - intros Hn.
    rewrite parseInt_digits by (simpl; by eapply readDigits_head).
    apply readDigits_digitsPrefix in Hn. unfold Js.digitsValue.
    fold decimalStep. by rewrite Hn.
Qed.

Lemma digitsPrefix_takeDigits (s : string) :
  Js.digitsPrefix (takeDigits s) = Js.digitsPrefix s.
Proof.
  induction s as [|c r IH]; simpl; [done|].
  destruct (Js.isDigit c) eqn:Hc; simpl; [by rewrite Hc, IH|done].
Qed.

Lemma parseInt_takeDigits (s : string) :
  Js.parseInt (takeDigits s)
  = match Js.digitsPrefix s with
    | [] => None
    | ds => Some (1 * Js.digitsValue ds)%Z
    end.
Proof.
  destruct s as [|c r]; [done|]. simpl.
  destruct (Js.isDigit c) eqn:Hc; [|done].
  destruct (digit_not_white_space c Hc) as (Hw & Hm & Hp).
  unfold Js.parseInt. simpl. rewrite Hw, Hm, Hp. simpl.
  by rewrite Hc, digitsPrefix_takeDigits.
Qed.

(** [parseInt] reads of an id its sign and leading digits, and nothing
    else. *)
Lemma parseInt_signAndDigits (s : string) :
  Js.parseInt (signAndDigits s) = Js.parseInt s.
Proof.
  unfold signAndDigits, Js.parseInt at 2.
  destruct (Js.trimStart s) as [|c r]; [done|].
  destruct (Ascii.eqb c "-") eqn:Hm.
  { apply Ascii.eqb_eq in Hm. subst c. unfold Js.parseInt. simpl.
    by rewrite digitsPrefix_takeDigits. }
  destruct (Ascii.eqb c "+") eqn:Hp; apply parseInt_takeDigits.
Qed.

End Numerals.

(** ** Replies of a handler *)

Section Answers.

Lemma answers_ret (Q : response → Prop) (x : response) :
  Q x → answers Q (mret x).
Proof. by intros H w. Qed.

Lemma answers_bind {A} (Q : response → Prop) (m : M A) (k : A → M response) :
  (∀ a, answers Q (k a)) → answers Q (m ≫= k).
Proof.
  intros Hk w. unfold mbind, M_bind. destruct (m w) as [a w']. apply Hk.
Qed.

Lemma statusIn_reply (codes : list Z) (code : Z) (b : payload) :
  code ∈ codes → statusIn codes (Reply code b).
Proof. by intros H ? [= <-]. Qed.

Lemma statusIn_jsonFirst (codes : list Z) (code : Z) (rows : option item) :
  code ∈ codes → statusIn codes (jsonFirst code rows).
Proof. intros H. destruct rows; [by apply statusIn_reply|by intros ? [=]]. Qed.

End Answers.

Ltac answers_step :=
  first
    [ apply answers_bind; intros ?
    | apply answers_ret;
      first [ apply statusIn_jsonFirst | apply statusIn_reply ];
      by repeat constructor
    | match goal with
      | |- answers _ (match ?x with _ => _ end) => destruct x
      end ].

(** * The claims *)

(** ** Identifier validation *)

Section InvalidId.

Variables (jb : gmap string Js.json) (f : gmap string string)
          (p : option upload).

(** An identifier that [parseInt] reads is never answered with the
    validation error of [GET /inventory/:id]. *)
Lemma getById_valid_id s i w :
  Js.parseInt s = Some i → ¬ ValidationError (getById s w).1.
Proof.
  intros Hs. unfold getById. rewrite Hs. munfold.
  destruct w as [t a c [|[] l]]; simpl; try done;
    destruct (t !! i); simpl; done.
Qed.

(** An identifier that [parseInt] reads is answered with 200, 404 or 500
    by the handlers that look the item up. *)
Lemma valid_id_statuses s i :
  Js.parseInt s = Some i →
  answers (statusIn [200; 404; 500]%Z) (getById s)
  ∧ (∀ b, answers (statusIn [200; 404; 500]%Z) (updateMetadata s b))
  ∧ answers (statusIn [200; 404; 500]%Z) (deleteItem s)
  ∧ answers (statusIn [200; 404; 500]%Z) (getPhoto s)
  ∧ (∀ file,
       answers (statusIn [200; 404; 500]%Z) (replacePhoto s (Some file)))
  ∧ (∀ body, body !! "id" = Some s →
             answers (statusIn [200; 404; 500]%Z) (searchRender body)).
Proof.
  intros Hs. split_and!; [| | | | |intros body Hb]; intros;
    unfold getById, updateMetadata, deleteItem, getPhoto, replacePhoto,
      searchRender, Js.parseIntArg, unlinkPhoto, unlinkOld, unlinkUpload,
      internalError, invalidId, notFound, photoNotFound;
    rewrite ?Hb; simpl default; rewrite Hs;
    repeat answers_step.
Qed.

Lemma statusIn_valid (x : response) :
  statusIn [200; 404; 500]%Z x → ¬ ValidationError x.
Proof.
  intros H Hx. specialize (H _ Hx).
  repeat (apply elem_of_cons in H as [H|H]; [done|]).
  by apply not_elem_of_nil in H.
Qed.

(** The handlers read of the id what [parseInt] reads of it. *)
Lemma handlers_signAndDigits s :
  getById (signAndDigits s) = getById s
  ∧ (∀ b, updateMetadata (signAndDigits s) b = updateMetadata s b)
  ∧ deleteItem (signAndDigits s) = deleteItem s
  ∧ getPhoto (signAndDigits s) = getPhoto s
  ∧ (∀ file, replacePhoto (signAndDigits s) file = replacePhoto s file)
  ∧ (∀ body, body !! "id" = Some s →
             searchRender (<["id" := signAndDigits s]> body)
             = searchRender body).
Proof.
  unfold getById, updateMetadata, deleteItem, getPhoto, replacePhoto,
    searchRender, Js.parseIntArg.
  split_and!; intros; rewrite ?lookup_insert_eq; simpl default;
    rewrite ?parseInt_signAndDigits; try done.
  rewrite lookup_insert_ne by done. by rewrite H.
Qed.

(** C1 (amended): on each of the six id-bearing routes, an identifier that
    after leading white space and an optional sign does not start with a
    decimal digit -- so that [parseInt(id, 10)] is NaN -- is answered with
    400 and no query is made: table, counter and announced query outcomes
    are as before, and a photo uploaded with the request is gone from the
    cache directory.  On [POST /search] the same holds for an absent id.
    Every other identifier passes the check, whatever follows its digits:
    the reply is not the validation error, the request is served as the
    one whose identifier is cut down to the sign and the leading digits,
    and when these denote a safe integer [n], [GET /inventory/:id] answers
    with item [n], or 404 when there is none. *)
Theorem invalid_id_is_validation_error s w :
  (startsWithDigit (stripSign (Js.trimStart s)) = false →
   app (Request "GET" ["inventory"; s] jb f p) w = (invalidId, w)
   ∧ app (Request "PUT" ["inventory"; s] jb f p) w = (invalidId, w)
   ∧ app (Request "DELETE" ["inventory"; s] jb f p) w = (invalidId, w)
   ∧ app (Request "GET" ["inventory"; s; "photo"] jb f p) w = (invalidId, w)
   ∧ (let out := app (Request "PUT" ["inventory"; s; "photo"] jb f p) w in
      out.1 = invalidId
      ∧ inventory out.2 = inventory w
      ∧ auto_increment out.2 = auto_increment w
      ∧ db_errors out.2 = db_errors w
      ∧ ∀ u, p = Some u → cache out.2 !! upload_filename u = None)
   ∧ (f !! "id" = Some s ∨ f !! "id" = None →
      app (Request "POST" ["search"] jb f p) w
      = (Reply 400 (Text "Invalid id"), w)))
  ∧ (startsWithDigit (stripSign (Js.trimStart s)) = true →
     ¬ ValidationError (app (Request "GET" ["inventory"; s] jb f p) w).1
     ∧ ¬ ValidationError (app (Request "PUT" ["inventory"; s] jb f p) w).1
     ∧ ¬ ValidationError (app (Request "DELETE" ["inventory"; s] jb f p) w).1
     ∧ ¬ ValidationError
           (app (Request "GET" ["inventory"; s; "photo"] jb f p) w).1
     ∧ (app (Request "PUT" ["inventory"; s; "photo"] jb f p) w).1 ≠ invalidId
     ∧ (p ≠ None →
        ¬ ValidationError
            (app (Request "PUT" ["inventory"; s; "photo"] jb f p) w).1)
     ∧ (f !! "id" = Some s →
        ¬ ValidationError (app (Request "POST" ["search"] jb f p) w).1))
  ∧ (∀ m, app (Request m ["inventory"; s] jb f p) w
          = app (Request m ["inventory"; signAndDigits s] jb f p) w)
  ∧ (∀ m, app (Request m ["inventory"; s; "photo"] jb f p) w
          = app (Request m ["inventory"; signAndDigits s; "photo"] jb f p) w)
  ∧ (f !! "id" = Some s →
     app (Request "POST" ["search"] jb f p) w
     = app (Request "POST" ["search"] jb (<["id" := signAndDigits s]> f) p) w)
  ∧ (∀ n, readDecimal (signAndDigits s) = Some n →
          safeInteger n →
          queriesSucceed 1 w = true →
          (app (Request "GET" ["inventory"; s] jb f p) w).1
          = match inventory w !! n with
            | Some r => Reply 200 (JsonItem (itemToDto (item_of_row n r)))
            | None => notFound
            end).
Proof.
  destruct (handlers_signAndDigits s)
    as (Eget & Eput & Edel & Ephoto & Ereplace & Esearch).
  split_and!.
  - intros Hs%parseInt_NaN.
    rewrite app_getById, app_updateMetadata, app_deleteItem, app_getPhoto,
      app_replacePhoto, app_searchRender.
    unfold getById, updateMetadata, deleteItem, getPhoto, replacePhoto,
      searchRender. rewrite Hs.
    repeat split; try done; try by destruct p.
    + intros u ->. simpl. apply lookup_delete_eq.
    + intros [Hf|Hf]; rewrite Hf; unfold Js.parseIntArg; simpl; by rewrite ?Hs.
  - intros Hs. destruct (Js.parseInt s) as [i|] eqn:Hi;
      [|apply parseInt_NaN in Hi; congruence].
    destruct (valid_id_statuses s i Hi)
      as (Hget & Hput & Hdel & Hphoto & Hreplace & Hsearch).
    rewrite app_getById, app_updateMetadata, app_deleteItem, app_getPhoto,
      app_searchRender.
    split_and!.
    + apply statusIn_valid, Hget.
    + apply statusIn_valid, Hput.
    + apply statusIn_valid, Hdel.
    + apply statusIn_valid, Hphoto.
    + rewrite app_replacePhoto. unfold mbind, M_bind.
      destruct (uploadSingle _ w) as [[file|] w'].
      * intros Hx. apply (statusIn_valid _ (Hreplace file w')).
        by rewrite Hx.
      * unfold replacePhoto. by rewrite Hi.
    + intros Hp. rewrite app_replacePhoto. unfold mbind, M_bind, uploadSingle.
      destruct p as [u|]; [|done]. apply statusIn_valid, Hreplace.
    + intros Hf. by apply statusIn_valid, Hsearch.
  - intros m. unfold app. simpl. by rewrite Eget, Eput, Edel.
  - intros m. unfold app. simpl. rewrite Ephoto.
    destruct (includes _ m); [|done]. destruct (String.eqb m "GET"); [done|].
    unfold mbind, M_bind. destruct (uploadSingle _ w) as [file w'].
    by rewrite Ereplace.
  - intros Hf. rewrite !app_searchRender. by rewrite Esearch.
  - intros n Hn _ Hq. apply readDecimal_parseInt in Hn.
    rewrite parseInt_signAndDigits in Hn.
    rewrite app_getById. unfold getById. rewrite Hn. munfold.
    destruct w as [t a c [|[] l]]; simpl in *; try done;
      by destruct (t !! n).
Qed.

End InvalidId.

(** The identifier [abc] on an empty store; the identifier [ +12abc] on a
    store that holds item 12. *)
Lemma invalid_id_is_validation_error_witness :
  let w := World {[12%Z := Row "Drill" "Cordless" None]} 13 ∅ [] in
  startsWithDigit (stripSign (Js.trimStart "abc")) = false
  ∧ app (Request "GET" ["inventory"; "abc"] ∅ ∅ None) (World ∅ 1 ∅ [])
    = (invalidId, World ∅ 1 ∅ [])
  ∧ signAndDigits " +12abc" = "12"
  ∧ readDecimal "12" = Some 12%Z
  ∧ safeInteger 12
  ∧ queriesSucceed 1 w = true
  ∧ (app (Request "GET" ["inventory"; " +12abc"] ∅ ∅ None) w).1
    = Reply 200 (JsonItem (Dto 12 "Drill" "Cordless" None)).
Proof.
  intros w.
  assert (startsWithDigit (stripSign (Js.trimStart "abc")) = false) as H1
    by reflexivity.
  assert (readDecimal (signAndDigits " +12abc") = Some 12%Z) as H2
    by reflexivity.
  assert (safeInteger 12) as H3 by (unfold safeInteger, maxSafeInteger; lia).
  assert (queriesSucceed 1 w = true) as H4 by reflexivity.
  destruct (invalid_id_is_validation_error ∅ ∅ None "abc" (World ∅ 1 ∅ []))
    as (Hnan & _).
  destruct (Hnan H1) as (Hget & _).
  destruct (invalid_id_is_validation_error ∅ ∅ None " +12abc" w)
    as (_ & _ & _ & _ & _ & Hlookup).
  pose proof (Hlookup 12%Z H2 H3 H4) as Hitem.
  split_and!; [exact H1|exact Hget|reflexivity|exact H2|exact H3|exact H4
              |exact Hitem].
Defined.

(** C1 as stated fails: [12abc] is not a numeric string, yet
    [GET /inventory/12abc] looks up item 12 and answers 404, not 400. *)
Lemma non_numeric_id_reaches_lookup :
  isNumericString "12abc" = false
  ∧ Js.parseInt "12abc" = Some 12%Z
  ∧ app (Request "GET" ["inventory"; "12abc"] ∅ ∅ None) (World ∅ 1 ∅ [])
    = (notFound, World ∅ 1 ∅ [])
  ∧ NotFound notFound ∧ ¬ ValidationError notFound.
Proof. repeat split; try reflexivity. discriminate. Qed.

(** ** Non-empty names *)

(** C2 (the code breaks it): the update route has no check of the name.
    After registering [Drill] on the empty store, [PUT /inventory/1] with an
    empty [inventory_name] answers 200 and the stored name is empty, in a
    reachable world; every other route keeps the names non-empty
    ([names_app]), as [register] does by its check. *)
Theorem update_stores_empty_name :
  reachable drillRenamed
  ∧ holds namesNonEmpty drillRegistered
  ∧ (app putEmptyName drillRegistered).1
    = Reply 200 (JsonItem (Dto 1 EmptyString EmptyString None))
  ∧ inventory drillRenamed !! 1%Z
    = Some (Row EmptyString EmptyString None)
  ∧ ¬ holds namesNonEmpty drillRenamed.
Proof.
  assert (inventory drillRenamed !! 1%Z
          = Some (Row EmptyString EmptyString None))
    as Hrow by (vm_compute; reflexivity).
  split_and!.
  - apply reachable_request, reachable_request, reachable_start.
  - apply names_app; [by intros (a & s & [=] & _)|].
    intros k r. cbn [inventory]. by rewrite lookup_empty.
  - vm_compute. reflexivity.
  - exact Hrow.
  - intros H. by apply (H _ _ Hrow).
Qed.

(** ** Replacing a photo *)

(** C3 (the code breaks it): the handler unlinks the old file before the
    UPDATE.  When the UPDATE fails the reply is 500, the new file is
    unlinked as well, the row still names the old file, and the old file is
    gone: the photo that [GET /inventory/1/photo] served before the request
    is answered with 404 after it. *)
Theorem failed_update_loses_old_photo :
  reachable photoRegistered
  ∧ (app (Request "GET" ["inventory"; "1"; "photo"] ∅ ∅ None)
         photoRegistered).1
    = Reply 200 (ImageJpeg "OLD BYTES")
  ∧ (app putNewPhoto photoRegistered).1 = internalError
  ∧ inventory photoReplaceFailed !! 1%Z
    = Some (Row "Drill" EmptyString (Some "old"))
  ∧ cache photoRegistered !! "old" = Some "OLD BYTES"
  ∧ cache photoReplaceFailed !! "old" = None
  ∧ cache photoReplaceFailed !! "new" = None
  ∧ (app (Request "GET" ["inventory"; "1"; "photo"] ∅ ∅ None)
         photoReplaceFailed).1
    = photoNotFound.
Proof.
  split.
  { apply reachable_outcomes, reachable_request, reachable_start. }
  split_and!; vm_compute; reflexivity.
Qed.

(** ** The search page and HTML escaping *)

Section SearchPage.

Lemma append_assoc (a b c : string) : (a +:+ b) +:+ c = a +:+ b +:+ c.
Proof.
  induction a as [|x a IH]; [done|].
  by rewrite !append_cons, IH.
Qed.

Lemma escapeHtml_markupFree s : markupFree s = true → escapeHtml s = s.
Proof.
  induction s as [|c s IH]; simpl; [done|].
  intros [Hc Hs]%andb_true_iff. rewrite (IH Hs).
  unfold escapeChar, isMarkupChar in *.
  destruct (Ascii.eqb c "&"); [done|]. destruct (Ascii.eqb c "<"); [done|].
  destruct (Ascii.eqb c ">"); [done|]. destruct (Ascii.eqb c "034"); [done|].
  destruct (Ascii.eqb c "'"); done.
Qed.

Lemma truthy_id s : (if Js.truthy s then s else EmptyString) = s.
Proof. by destruct s. Qed.

(** Whatever the item and the check box, the page starts with the
    identifier, the stored name and the stored description, each as it
    is. *)
Lemma searchPage_verbatim it has_photo :
  ∃ rest,
    searchPage it has_photo
    = pageHead +:+ Js.numberToString (id it) +:+ pageName
      +:+ inventory_name it +:+ pageDescription +:+ description it +:+ rest.
Proof.
  unfold searchPage, pageOf. rewrite truthy_id.
  destruct (has_photo && Js.truthy_opt (photo_filename it)); [|by eexists].
  destruct (Js.truthy (description it)); rewrite !append_assoc; by eexists.
Qed.

Lemma append_length (a b : string) :
  String.length (a +:+ b) = (String.length a + String.length b)%nat.
Proof. induction a as [|x a IH]; [done|]. rewrite append_cons. simpl. lia. Qed.

Lemma escapeChar_length (c : ascii) :
  (1 ≤ String.length (escapeChar c))%nat
  ∧ (isMarkupChar c = true → (2 ≤ String.length (escapeChar c))%nat).
Proof.
  unfold escapeChar, isMarkupChar.
  destruct (Ascii.eqb c "&"); [simpl; lia|].
  destruct (Ascii.eqb c "<"); [simpl; lia|].
  destruct (Ascii.eqb c ">"); [simpl; lia|].
  destruct (Ascii.eqb c "034"); [simpl; lia|].
  destruct (Ascii.eqb c "'"); simpl; [lia|]. split; [lia|done].
Qed.

(** Escaping never shortens a text, and it lengthens a text that holds a
    markup character. *)
Lemma escapeHtml_length (s : string) :
  (String.length s ≤ String.length (escapeHtml s))%nat
  ∧ (markupFree s = false →
     (String.length s < String.length (escapeHtml s))%nat).
Proof.
  induction s as [|c s [IH1 IH2]]; [by split|].
  cbn [escapeHtml markupFree]. rewrite append_length.
  destruct (escapeChar_length c) as [H1 H2].
  change (String.length (String c s)) with (S (String.length s)).
  split; [lia|].
  destruct (isMarkupChar c); simpl; [specialize (H2 eq_refl); lia|].
  intros Hs. specialize (IH2 Hs). lia.
Qed.

Lemma truthy_escapeHtml (s : string) :
  Js.truthy (escapeHtml s) = Js.truthy s.
Proof.
  destruct s as [|c s]; [done|]. cbn [escapeHtml].
  destruct (escapeChar_length c) as [H _].
  by destruct (escapeChar c); [simpl in H; lia|].
Qed.

(** A page whose name or description holds a markup character is shorter
    than its escaped rendering. *)
Lemma searchPage_shorter (it : item) (has_photo : bool) :
  markupFree (inventory_name it) && markupFree (description it) = false →
  (String.length (searchPage it has_photo)
   < String.length (searchPageEscaped it has_photo))%nat.
Proof.
  intros Hm. unfold searchPageEscaped, searchPage.
  cbn [inventory_name description photo_filename id].
  rewrite !truthy_id, !truthy_escapeHtml.
  destruct (escapeHtml_length (inventory_name it)) as [Hn1 Hn2].
  destruct (escapeHtml_length (description it)) as [Hd1 Hd2].
  assert ((String.length (inventory_name it)
           + String.length (description it)
           < String.length (escapeHtml (inventory_name it))
             + String.length (escapeHtml (description it)))%nat) as Hlt.
  { apply andb_false_iff in Hm as [Hm|Hm];
      [specialize (Hn2 Hm)|specialize (Hd2 Hm)]; lia. }
  destruct (has_photo && Js.truthy_opt (photo_filename it));
    [destruct (Js.truthy (description it))|];
    unfold pageOf, photoBlockOf; rewrite !append_length; lia.
Qed.

(** C4 (amended): [POST /search] for an existing item answers 200 with a
    page that embeds the identifier as its decimal numeral and the stored
    [inventory_name] and [description] verbatim, without escaping; the page
    is the escaped rendering exactly when name and description hold none of
    the characters ampersand, less-than, greater-than, double quote and
    apostrophe. *)
Theorem search_page_embeds_fields_verbatim
    (w : world) (body : gmap string string) (i : Z) (r : row) :
  Js.parseIntArg (body !! "id") = Some i →
  safeInteger i →
  inventory w !! i = Some r →
  queriesSucceed 1 w = true →
  let has_photo := bool_decide (is_Some (body !! "has_photo")) in
  (searchRender body w).1
  = Reply 200 (Text (searchPage (item_of_row i r) has_photo))
  ∧ (∃ idText rest,
       searchPage (item_of_row i r) has_photo
       = pageHead +:+ idText +:+ pageName
         +:+ col_inventory_name r +:+ pageDescription
         +:+ col_description r +:+ rest
       ∧ decimalOf i idText)
  ∧ (searchPage (item_of_row i r) has_photo
     = searchPageEscaped (item_of_row i r) has_photo
     ↔ markupFree (col_inventory_name r) = true
       ∧ markupFree (col_description r) = true).
Proof.
  intros Hid _ Hr Hq has_photo. split_and!.
  - unfold searchRender. rewrite Hid. munfold.
    destruct w as [t a c [|[] l]]; simpl in *; try done; by rewrite Hr.
  - destruct (searchPage_verbatim (item_of_row i r) has_photo) as [rest H].
    exists (Js.numberToString i), rest. split; [exact H|].
    apply decimalOf_numberToString.
  - split.
    + intros H. apply andb_true_iff.
      destruct (markupFree (col_inventory_name r)
                && markupFree (col_description r)) eqn:Hm; [done|].
      pose proof (searchPage_shorter (item_of_row i r) has_photo Hm) as Hlt.
      rewrite <- H in Hlt. lia.
    + intros [Hn Hd]. unfold searchPageEscaped. simpl.
      by rewrite !escapeHtml_markupFree.
Qed.

End SearchPage.

(** The search page of the item [Drill]. *)
Lemma search_page_embeds_fields_verbatim_witness :
  let w := World {[1%Z := Row "Drill" "Cordless" None]} 2 ∅ [] in
  let body : gmap string string := {["id" := "1"]} in
  Js.parseIntArg (body !! "id") = Some 1%Z
  ∧ safeInteger 1
  ∧ inventory w !! 1%Z = Some (Row "Drill" "Cordless" None)
  ∧ queriesSucceed 1 w = true
  ∧ (searchRender body w).1
    = Reply 200
        (Text (searchPage (Item 1 "Drill" "Cordless" None) false)).
Proof.
  intros w body.
  assert (Js.parseIntArg (body !! "id") = Some 1%Z) as H1 by reflexivity.
  assert (safeInteger 1) as Hs by (unfold safeInteger, maxSafeInteger; lia).
  assert (inventory w !! 1%Z = Some (Row "Drill" "Cordless" None)) as H2
    by reflexivity.
  assert (queriesSucceed 1 w = true) as H3 by reflexivity.
  split_and!; try assumption.
  apply (search_page_embeds_fields_verbatim w body 1 _ H1 Hs H2 H3).
Defined.

(** C4 as stated fails: a name with markup is embedded as it is.  The page
    for the item named [<b>x</b>] differs from the escaped rendering, and
    the tag stands in the reply. *)
Lemma search_page_injects_markup :
  let it := Item 1 "<b>x</b>" EmptyString None in
  let w := World {[1%Z := Row "<b>x</b>" EmptyString None]} 2 ∅ [] in
  searchPage it false ≠ searchPageEscaped it false
  ∧ (searchRender {["id" := "1"]} w).1 = Reply 200 (Text (searchPage it false))
  ∧ ∃ rest, searchPage it false
            = pageHead +:+ "1" +:+ pageName +:+ "<b>x</b>" +:+ rest.
Proof.
  intros it w. split_and!.
  - apply String.eqb_neq. vm_compute. reflexivity.
  - vm_compute. reflexivity.
  - eexists. vm_compute. reflexivity.
Qed.

(** ** Photo retrieval *)


(** ** Partial update *)

Section UpdateMetadata.

Variables (w : world) (s : string) (i : Z) (r : row).
Hypothesis parsed : Js.parseInt s = Some i.
Hypothesis present : inventory w !! i = Some r.
Hypothesis succeed : queriesSucceed 3 w = true.

(** On an existing item, with the three queries succeeding, the update
    answers 200 with the DTO of the updated row. *)
Lemma updateMetadata_ok body :
  updateMetadata s body w
  = (Reply 200 (JsonItem (itemToDto (item_of_row i (updatedRow body r)))),
     World (alter (updatedRow body) i (inventory w)) (auto_increment w)
           (cache w) (drop 3 (db_errors w))).
Proof.
  unfold updateMetadata. rewrite parsed. clear parsed.
  destruct w as [t a c l]. simpl in present.
  outcomes l succeed; munfold; simpl; rewrite present; simpl;
    rewrite lookup_alter_eq, present; reflexivity.
Qed.

Lemma getById_ok :
  getById s w
  = (Reply 200 (JsonItem (itemToDto (item_of_row i r))),
     World (inventory w) (auto_increment w) (cache w)
           (drop 1 (db_errors w))).
Proof.
  unfold getById. rewrite parsed. clear parsed.
  destruct w as [t a c l]. simpl in present.
  outcomes l succeed; munfold; simpl; rewrite present; reflexivity.
Qed.

Lemma updatedRow_omitted body :
  body !! "inventory_name" = None → body !! "description" = None →
  updatedRow body r = r.
Proof. unfold updatedRow. intros -> ->. by destruct r. Qed.

(** C6: on an existing item the update answers 200 with a DTO in which a
    field given as a string has the new value and an omitted field has its
    prior value; identifier, photo link and all other rows are untouched;
    with no field given, the DTO is the one [GET /inventory/:id] returned
    before, and the table is unchanged. *)
Theorem updateMetadata_applies_only_provided_fields body :
  let out := updateMetadata s body w in
  ∃ d, out.1 = Reply 200 (JsonItem d)
       ∧ dto_id d = i
       ∧ (body !! "inventory_name" = None →
          dto_inventory_name d = col_inventory_name r)
       ∧ (∀ n, body !! "inventory_name" = Some (Js.JString n) →
               dto_inventory_name d = n)
       ∧ (body !! "description" = None →
          dto_description d = col_description r)
       ∧ (∀ n, body !! "description" = Some (Js.JString n) →
               dto_description d = n)
       ∧ photoUrl d = photoUrl (itemToDto (item_of_row i r))
       ∧ inventory out.2 !! i
         = Some (Row (dto_inventory_name d) (dto_description d)
                     (col_photo_filename r))
       ∧ (∀ k, k ≠ i → inventory out.2 !! k = inventory w !! k)
       ∧ cache out.2 = cache w
       ∧ (body !! "inventory_name" = None → body !! "description" = None →
          out.1 = (getById s w).1 ∧ inventory out.2 = inventory w).
Proof.
  intros out. subst out. rewrite updateMetadata_ok. simpl.
  eexists. split; [reflexivity|]. simpl. split_and!; try done.
  - by intros ->.
  - by intros n ->.
  - by intros ->.
  - by intros n ->.
  - by rewrite lookup_alter_eq, present.
  - intros k Hk. by rewrite lookup_alter_ne.
  - intros Hn Hd. rewrite getById_ok. simpl.
    rewrite (updatedRow_omitted body Hn Hd). split; [done|].
    apply map_eq. intros k. rewrite lookup_alter. case_decide; [subst k|done].
    rewrite present. simpl. by rewrite (updatedRow_omitted body Hn Hd).
Qed.

End UpdateMetadata.

(** The item [Drill] updated with an empty body. *)
Lemma updateMetadata_applies_only_provided_fields_witness :
  let w := World {[1%Z := Row "Drill" "Cordless" None]} 2 ∅ [] in
  Js.parseInt "1" = Some 1%Z
  ∧ inventory w !! 1%Z = Some (Row "Drill" "Cordless" None)
  ∧ queriesSucceed 3 w = true
  ∧ ∃ d, (updateMetadata "1" ∅ w).1 = Reply 200 (JsonItem d)
         ∧ dto_id d = 1%Z.
Proof.
  intros w.
  assert (Js.parseInt "1" = Some 1%Z) as H1 by reflexivity.
  assert (inventory w !! 1%Z = Some (Row "Drill" "Cordless" None)) as H2
    by reflexivity.
  assert (queriesSucceed 3 w = true) as H3 by reflexivity.
  split_and!; try assumption.
  destruct (updateMetadata_applies_only_provided_fields w "1" 1 _ H1 H2 H3 ∅)
    as (d & Hd & Hid & _).
  exists d. by split.
Defined.

(** ** Fields that are not strings *)

Lemma stringOrNull_not_string (v : Js.json) :
  (∀ n, v ≠ Js.JString n) → Js.stringOrNull (Some v) = None.
Proof. intros H. destruct v; try reflexivity. by destruct (H s). Qed.

Section NonStringField.

Variables (body : gmap string Js.json) (field : string) (v : Js.json).
Hypothesis field_name : field = "inventory_name" ∨ field = "description".
Hypothesis given : body !! field = Some v.
Hypothesis not_string : ∀ n, v ≠ Js.JString n.

Lemma stringOrNull_delete name :
  Js.stringOrNull (delete field body !! name) = Js.stringOrNull (body !! name).
Proof.
  rewrite lookup_delete. case_decide; [subst name|done].
  by rewrite given, stringOrNull_not_string.
Qed.

(** C10: a field of the update body that is present but not a string
    (number, boolean, null, array, object) is treated as omitted: the
    request behaves, on every world, as the request without that field; so
    on an existing item the answer is 200, not a validation error, and the
    stored value of that field is the prior one. *)
Theorem updateMetadata_ignores_non_string_field :
  (∀ s w, updateMetadata s body w = updateMetadata s (delete field body) w)
  ∧ (∀ s w i r,
       Js.parseInt s = Some i → inventory w !! i = Some r →
       queriesSucceed 3 w = true →
       let out := updateMetadata s body w in
       ∃ d r', out.1 = Reply 200 (JsonItem d)
               ∧ ¬ ValidationError out.1
               ∧ inventory out.2 !! i = Some r'
               ∧ (field = "inventory_name" →
                  dto_inventory_name d = col_inventory_name r
                  ∧ col_inventory_name r' = col_inventory_name r)
               ∧ (field = "description" →
                  dto_description d = col_description r
                  ∧ col_description r' = col_description r)).
Proof.
  split.
  - intros s w. unfold updateMetadata. by rewrite !stringOrNull_delete.
  - intros s w i r Hs Hr Hq out. subst out.
    rewrite (updateMetadata_ok w s i r Hs Hr Hq). simpl.
    eexists _, _. split; [reflexivity|]. split; [done|].
    rewrite lookup_alter_eq, Hr. split; [reflexivity|]. simpl.
    split; intros ->; rewrite given, stringOrNull_not_string; done.
Qed.

End NonStringField.

(** The name given as the number 7. *)
Lemma updateMetadata_ignores_non_string_field_witness :
  let body : gmap string Js.json := {["inventory_name" := Js.JNumber 7]} in
  let w := World {[1%Z := Row "Drill" "Cordless" None]} 2 ∅ [] in
  ("inventory_name" = "inventory_name" ∨ "inventory_name" = "description")
  ∧ body !! "inventory_name" = Some (Js.JNumber 7)
  ∧ (∀ n, Js.JNumber 7 ≠ Js.JString n)
  ∧ updateMetadata "1" body w = updateMetadata "1" (delete "inventory_name" body) w.
Proof.
  intros body w.
  assert ("inventory_name" = "inventory_name"
          ∨ "inventory_name" = "description") as H1 by (left; reflexivity).
  assert (body !! "inventory_name" = Some (Js.JNumber 7)) as H2
    by reflexivity.
  assert (∀ n, Js.JNumber 7 ≠ Js.JString n) as H3 by (intros n; discriminate).
  split_and!; try assumption.
  apply (updateMetadata_ignores_non_string_field body "inventory_name"
           (Js.JNumber 7) H1 H2 H3).
Defined.

(** ** Registration *)

Section Register.

Variables (w : world) (jb : gmap string Js.json)
          (body : gmap string string) (p : option upload).

(** C8: a registration whose name is absent, empty or white space only is
    answered with 400; no query is made, so no row is inserted; the file
    that multer stored for the request is unlinked, and when its name was
    fresh the cache directory is as before. *)
Theorem register_blank_name_rejected :
  (body !! "inventory_name" = None
   ∨ ∃ n, body !! "inventory_name" = Some n ∧ allWhiteSpace n = true) →
  let out := app (Request "POST" ["register"] jb body p) w in
  out.1 = Reply 400 (JsonError "inventory_name is required")
  ∧ ValidationError out.1
  ∧ inventory out.2 = inventory w
  ∧ auto_increment out.2 = auto_increment w
  ∧ db_errors out.2 = db_errors w
  ∧ (∀ u, p = Some u → cache out.2 !! upload_filename u = None)
  ∧ (∀ u, p = Some u → cache w !! upload_filename u = None →
          cache out.2 = cache w)
  ∧ (p = None → cache out.2 = cache w).
Proof.
  intros Hblank%nameMissing_blank out. subst out.
  rewrite app_register. unfold register, uploadSingle, mbind, M_bind.
  cbn [photo form].
  destruct p as [u|]; simpl; rewrite Hblank; simpl.
  - split_and!; try done.
    + intros ? [= <-]. apply lookup_delete_eq.
    + intros ? [= <-] Hfresh. by apply delete_insert_id.
  - split_and!; done.
Qed.

Hypothesis reach : reachable w.
Hypothesis succeed : queriesSucceed 3 w = true.
Hypothesis named : ∀ u, p = Some u → upload_filename u ≠ EmptyString.

Variable name : string.
Hypothesis given : body !! "inventory_name" = Some name.
Hypothesis not_blank : allWhiteSpace name = false.

(** The reply to a registration with a name that is not blank, and the
    item that a lookup of the new id finds afterwards. *)
Lemma register_reply :
  let out := app (Request "POST" ["register"] jb body p) w in
  let i := auto_increment w in
  ∃ d, out.1 = Reply 201 (JsonItem d)
       ∧ dto_id d = i
       ∧ dto_inventory_name d = Js.trim name
       ∧ (∃ l r, name = l +:+ dto_inventory_name d +:+ r
                 ∧ allWhiteSpace l = true ∧ allWhiteSpace r = true
                 ∧ headIsWhiteSpace (dto_inventory_name d) = false
                 ∧ lastIsWhiteSpace (dto_inventory_name d) = false)
       ∧ dto_description d = default EmptyString (body !! "description")
       ∧ (photoUrl d = None ↔ p = None)
       ∧ (p ≠ None →
          photoUrl d
          = Some ("/inventory/" +:+ Js.numberToString i +:+ "/photo"))
       ∧ ∀ s, Js.parseInt s = Some i →
              (getById s out.2).1 = Reply 200 (JsonItem d).
Proof.
  intros out i. subst out i.
  pose proof (reachable_fresh_key w reach) as Hfresh.
  assert (nameMissing (Some name) = false) as Hname.
  { destruct (nameMissing (Some name)) eqn:Hm; [|done].
    apply nameMissing_blank in Hm as [|(n & [= <-] & Hn)]; congruence. }
  rewrite app_register. unfold register, uploadSingle, mbind at 1, M_bind at 1.
  cbn [photo form]. rewrite given, Hname.
  assert ((match body !! "description" with
           | Some d => if Js.truthy d then d else EmptyString
           | None => EmptyString
           end) = default EmptyString (body !! "description")) as ->.
  { destruct (body !! "description") as [d|]; [apply truthy_id|done]. }
  destruct w as [t a c l]. simpl in Hfresh.
  destruct p as [u|].
  - pose proof (named u eq_refl) as Hu.
    outcomes l succeed; munfold; simpl; rewrite Hfresh; simpl;
      rewrite lookup_insert_eq; simpl;
      (eexists; split_and!; [reflexivity|try done..]);
      try apply trim_surrounding;
      unfold itemToDto; simpl;
      destruct (upload_filename u) eqn:Hf; try done; simpl;
      try (intros ? ->; simpl; by rewrite lookup_insert_eq).
  - outcomes l succeed; munfold; simpl; rewrite Hfresh; simpl;
      rewrite lookup_insert_eq; simpl;
      (eexists; split_and!; [reflexivity|try done..]);
      try apply trim_surrounding;
      try (intros ? ->; simpl; by rewrite lookup_insert_eq).
Qed.

(** C7: a registration with a name that is not blank answers 201 with the
    DTO of the new item, whose id is the AUTO_INCREMENT value; a following
    [GET /inventory/:id] for that id, written as its decimal numeral,
    answers 200 with the same DTO, as does every id that [parseInt] reads
    as that number; its name is the submitted name trimmed (the name
    without a prefix and a suffix of white space, and with no white space
    left at either end), its description the submitted one (empty when
    omitted), and its photo link is null exactly when no photo came with
    the request, [/inventory/{id}/photo] with that numeral otherwise. *)
Theorem register_then_getById :
  safeInteger (auto_increment w) →
  let out := app (Request "POST" ["register"] jb body p) w in
  let i := auto_increment w in
  let idText := Js.numberToString i in
  ∃ d, out.1 = Reply 201 (JsonItem d)
       ∧ dto_id d = i
       ∧ dto_inventory_name d = Js.trim name
       ∧ (∃ l r, name = l +:+ dto_inventory_name d +:+ r
                 ∧ allWhiteSpace l = true ∧ allWhiteSpace r = true
                 ∧ headIsWhiteSpace (dto_inventory_name d) = false
                 ∧ lastIsWhiteSpace (dto_inventory_name d) = false)
       ∧ dto_description d = default EmptyString (body !! "description")
       ∧ (photoUrl d = None ↔ p = None)
       ∧ decimalOf i idText
       ∧ (p ≠ None →
          photoUrl d = Some ("/inventory/" +:+ idText +:+ "/photo"))
       ∧ (app (Request "GET" ["inventory"; idText] jb body None) out.2).1
         = Reply 200 (JsonItem d)
       ∧ ∀ s, Js.parseInt s = Some i →
              (getById s out.2).1 = Reply 200 (JsonItem d).
Proof.
  intros _ out i idText.
  destruct register_reply
    as (d & Hd & Hi & Hn & Hs & Hdesc & Hnull & Hurl & Hget).
  exists d. split_and!; try done.
  - apply decimalOf_numberToString.
  - rewrite app_getById. apply Hget, parseInt_numberToString.
Qed.

End Register.

(** [Drill] registered with a photo, on the empty store. *)
Lemma register_then_getById_witness :
  let w := World ∅ 1 ∅ [] in
  let body : gmap string string :=
    {["inventory_name" := "  Drill "; "description" := "Cordless"]} in
  let p := Some (Upload "3f9a" "BYTES") in
  let out := app (Request "POST" ["register"] ∅ body p) w in
  reachable w
  ∧ queriesSucceed 3 w = true
  ∧ (∀ u, p = Some u → upload_filename u ≠ EmptyString)
  ∧ body !! "inventory_name" = Some "  Drill "
  ∧ allWhiteSpace "  Drill " = false
  ∧ safeInteger (auto_increment w)
  ∧ ∃ d, out.1 = Reply 201 (JsonItem d)
         ∧ dto_inventory_name d = "Drill"
         ∧ photoUrl d = Some "/inventory/1/photo"
         ∧ (app (Request "GET" ["inventory"; "1"] ∅ body None) out.2).1
           = Reply 200 (JsonItem d).
Proof.
  intros w body p out.
  assert (reachable w) as H1 by apply reachable_start.
  assert (queriesSucceed 3 w = true) as H2 by reflexivity.
  assert (∀ u, p = Some u → upload_filename u ≠ EmptyString) as H3
    by (intros u [= <-]; discriminate).
  assert (body !! "inventory_name" = Some "  Drill ") as H4 by reflexivity.
  assert (allWhiteSpace "  Drill " = false) as H5 by reflexivity.
  assert (safeInteger (auto_increment w)) as H6
    by (unfold safeInteger, maxSafeInteger; simpl; lia).
  split_and!; try assumption.
  destruct (register_then_getById w ∅ body p H1 H2 H3 _ H4 H5 H6)
    as (d & Hd & _ & Hn & _ & _ & _ & _ & Hurl & Hget & _).
  exists d. split_and!; [exact Hd|exact Hn| |exact Hget].
  apply Hurl. discriminate.
Defined.

(** A registration with a name of blanks and a photo. *)
Lemma register_blank_name_rejected_witness :
  let body : gmap string string := {["inventory_name" := "   "]} in
  let p := Some (Upload "3f9a" "BYTES") in
  (body !! "inventory_name" = None
   ∨ ∃ n, body !! "inventory_name" = Some n ∧ allWhiteSpace n = true)
  ∧ app (Request "POST" ["register"] ∅ body p) (World ∅ 1 ∅ [])
    = (Reply 400 (JsonError "inventory_name is required"), World ∅ 1 ∅ []).
Proof.
  intros body p.
  assert (body !! "inventory_name" = None
          ∨ ∃ n, body !! "inventory_name" = Some n ∧ allWhiteSpace n = true)
    as H by (right; exists "   "; split; reflexivity).
  split; [exact H|].
  destruct (register_blank_name_rejected (World ∅ 1 ∅ []) ∅ body p H)
    as (Hr & _ & Ht & Ha & Hd & _ & Hc & _).
  specialize (Hc _ eq_refl eq_refl).
  destruct (app _ _) as [resp [t a c l]]. simpl in *. by subst.
Defined.

(** ** Method guards *)

Lemma eqb_not_listed (m x : string) (ms : list string) :
  m ∉ x :: ms → String.eqb m x = false ∧ m ∉ ms.
Proof.
  intros [Hx Hms]%not_elem_of_cons. split; [|done]. by apply String.eqb_neq.
Qed.

(** C9: on each of the five recognised paths, a request whose method is not
    listed for the path is answered with 405 by the guard; nothing else
    runs, so the world is unchanged (no upload is stored, no query made). *)
Theorem unlisted_method_not_allowed (r : request) (w : world) ms :
  listedMethods (path r) = Some ms →
  method r ∉ ms →
  app r w = (methodNotAllowed, w) ∧ MethodNotAllowed (app r w).1
  ∧ ¬ NotFound (app r w).1.
Proof.
  intros Hpath Hm.
  assert (app r w = (methodNotAllowed, w)) as ->; [|by split_and!].
  unfold app, listedMethods in *.
  destruct (path r) as [|a [|s [|b [|? ?]]]]; try done.
  - destruct (String.eqb a "register") eqn:Ha.
    { apply String.eqb_eq in Ha. subst a. simplify_eq.
      apply eqb_not_listed in Hm as [-> _]. done. }
    destruct (String.eqb a "inventory") eqn:Hb.
    { apply String.eqb_eq in Hb. subst a. simplify_eq.
      apply eqb_not_listed in Hm as [-> _]. done. }
    destruct (String.eqb a "search") eqn:Hc; [|done].
    apply String.eqb_eq in Hc. subst a. simplify_eq.
    apply eqb_not_listed in Hm as [-> _]. done.
  - destruct (String.eqb a "inventory") eqn:Ha; [|done].
    apply String.eqb_eq in Ha. subst a. simplify_eq.
    unfold includes. rewrite bool_decide_eq_false_2 by done. reflexivity.
  - destruct (String.eqb a "inventory") eqn:Ha; [|done].
    destruct (String.eqb b "photo") eqn:Hb; [|done].
    apply String.eqb_eq in Ha, Hb. subst a b. simpl in Hpath. simplify_eq.
    unfold includes. rewrite bool_decide_eq_false_2 by done. reflexivity.
Qed.

(** [PATCH /inventory/7/photo] with a file part. *)
Lemma unlisted_method_not_allowed_witness :
  let r := Request "PATCH" ["inventory"; "7"; "photo"] ∅ ∅
                   (Some (Upload "3f9a" "BYTES")) in
  listedMethods (path r) = Some ["GET"; "PUT"]
  ∧ (method r ∉ ["GET"; "PUT"])
  ∧ app r (World ∅ 1 ∅ []) = (methodNotAllowed, World ∅ 1 ∅ []).
Proof.
  intros r.
  assert (listedMethods (path r) = Some ["GET"; "PUT"]) as H1 by reflexivity.
  assert (method r ∉ ["GET"; "PUT"]) as H2.
  { intros H. apply elem_of_cons in H as [H|H]; [discriminate H|].
    apply elem_of_cons in H as [H|H]; [discriminate H|].
    by apply not_elem_of_nil in H. }
  split_and!; try assumption.
  apply (unlisted_method_not_allowed r (World ∅ 1 ∅ []) _ H1 H2).
Defined.

(** * Further properties of the handlers *)

(** ** Identifiers in links *)

(** X1: the links that the service hands out lead back to the item.  For
    a stored item whose id is a safe integer and whose photo file is in the
    cache directory, the [photoUrl] of its DTO is [/inventory/{id}/photo]
    with the decimal numeral of the id, and GET on these segments answers
    200 with the bytes of the file; GET on [/inventory/{id}] answers 200
    with the DTO. *)
Theorem photo_link_leads_to_photo
    (w : world) (i : Z) (r : row) (name bytes : string) :
  safeInteger i →
  inventory w !! i = Some r →
  col_photo_filename r = Some name →
  Js.truthy name = true →
  cache w !! name = Some bytes →
  queriesSucceed 1 w = true →
  let d := itemToDto (item_of_row i r) in
  let segment := Js.numberToString (dto_id d) in
  decimalOf i segment
  ∧ photoUrl d = Some ("/inventory/" +:+ segment +:+ "/photo")
  ∧ (app (Request "GET" ["inventory"; segment; "photo"] ∅ ∅ None) w).1
    = Reply 200 (ImageJpeg bytes)
  ∧ (app (Request "GET" ["inventory"; segment] ∅ ∅ None) w).1
    = Reply 200 (JsonItem d).
Proof.
  intros _ Hr Hf Hn Hc Hq d segment. subst d segment.
  split; [apply decimalOf_numberToString|].
  rewrite app_getPhoto, app_getById. unfold getPhoto, getById.
  cbn [itemToDto item_of_row dto_id id]. rewrite parseInt_numberToString.
  destruct w as [t a c [|[] l]]; try discriminate Hq; munfold; simpl in *;
    rewrite Hr; simpl; rewrite Hf; simpl; rewrite Hn; simpl;
    rewrite Hc; simpl; rewrite ?Hn, ?Hc; split_and!; reflexivity.
Qed.

Lemma photo_link_leads_to_photo_witness :
  let w := World {[7%Z := Row "Drill" "Cordless" (Some "3f9a")]} 8
                 {["3f9a" := "BYTES"]} [] in
  safeInteger 7
  ∧ inventory w !! 7%Z = Some (Row "Drill" "Cordless" (Some "3f9a"))
  ∧ Js.truthy "3f9a" = true
  ∧ cache w !! "3f9a" = Some "BYTES"
  ∧ queriesSucceed 1 w = true
  ∧ (app (Request "GET" ["inventory"; "7"; "photo"] ∅ ∅ None) w).1
    = Reply 200 (ImageJpeg "BYTES").
Proof.
  intros w.
  assert (safeInteger 7) as H0 by (unfold safeInteger, maxSafeInteger; lia).
  assert (inventory w !! 7%Z = Some (Row "Drill" "Cordless" (Some "3f9a")))
    as H1 by reflexivity.
  assert (Js.truthy "3f9a" = true) as H2 by reflexivity.
  assert (cache w !! "3f9a" = Some "BYTES") as H3 by reflexivity.
  assert (queriesSucceed 1 w = true) as H4 by reflexivity.
  split_and!; try assumption.
  destruct (photo_link_leads_to_photo w 7 _ "3f9a" "BYTES"
              H0 H1 eq_refl H2 H3 H4) as (_ & _ & Hphoto & _).
  exact Hphoto.
Defined.

(** ** Requests that only read *)

Section ReadOnly.

Lemma readOnly_ret {A} (a : A) : readOnly (mret a).
Proof. by intros w. Qed.

Lemma readOnly_bind {A B} (m : M A) (k : A → M B) :
  readOnly m → (∀ a, readOnly (k a)) → readOnly (m ≫= k).
Proof.
  intros Hm Hk w. unfold mbind, M_bind.
  specialize (Hm w). destruct (m w) as [a w']. simpl in Hm.
  destruct Hm as (<- & <- & <-). apply Hk.
Qed.

Lemma readOnly_get_world : readOnly get_world.
Proof. by intros w. Qed.

Lemma readOnly_query {A} (run : M (query_result A)) :
  readOnly run → readOnly (query run).
Proof.
  intros Hrun w. unfold query, query_fails, mbind, M_bind.
  destruct (db_errors w) as [|[] l] eqn:Hl; simpl.
  - apply (Hrun w).
  - done.
  - apply (Hrun (World (inventory w) (auto_increment w) (cache w) l)).
Qed.

Lemma readOnly_selectById i : readOnly (selectById i).
Proof. apply readOnly_query. by intros w. Qed.

Lemma readOnly_selectAll : readOnly selectAll.
Proof. apply readOnly_query. by intros w. Qed.

Ltac readOnly_step :=
  first
    [ apply readOnly_ret
    | apply readOnly_selectById
    | apply readOnly_selectAll
    | apply readOnly_get_world
    | apply readOnly_bind; [|intros ?]
    | match goal with
      | |- readOnly (match ?x with _ => _ end) => destruct x
      end ].

Ltac readOnly_handlers :=
  unfold listItems, getById, getPhoto, searchRender, existsSync, readStream;
  repeat readOnly_step.

(** X2: a GET request, whatever its path, and a search change neither
    the table nor the AUTO_INCREMENT counter nor the cache directory. *)
Theorem get_and_search_are_read_only (r : request) :
  method r = "GET" ∨ (method r = "POST" ∧ path r = ["search"]) →
  readOnly (app r).
Proof.
  intros [Hm|[Hm Hp]]; unfold app; rewrite Hm; [|rewrite Hp].
  - destruct (path r) as [|a [|s [|b [|c l]]]]; simpl;
      readOnly_handlers.
  - simpl. readOnly_handlers.
Qed.

End ReadOnly.

Lemma get_and_search_are_read_only_witness :
  let r := Request "GET" ["inventory"; "1"; "photo"] ∅ ∅ None in
  (method r = "GET" ∨ (method r = "POST" ∧ path r = ["search"]))
  ∧ cache (app r photoRegistered).2 = cache photoRegistered.
Proof.
  intros r.
  assert (method r = "GET" ∨ (method r = "POST" ∧ path r = ["search"]))
    as H by (left; reflexivity).
  split; [exact H|].
  apply (get_and_search_are_read_only r H photoRegistered).
Defined.

(** ** Replies *)

Section Replies.

(** Split a world and the outcomes of its next three queries. *)
Ltac worlds w t a c l :=
  destruct w as [t a c l]; destruct l as [|[] [|[] [|[] l]]];
  munfold; simpl.

Lemma register_replies file body w : (register file body w).1 ≠ Uncaught.
Proof.
  unfold register. destruct (nameMissing _); [by destruct file|].
  worlds w t a c l; destruct file; simpl;
    destruct (t !! a) eqn:Ha; simpl; rewrite ?lookup_insert_eq; done.
Qed.

Lemma updateMetadata_replies s body w : (updateMetadata s body w).1 ≠ Uncaught.
Proof.
  unfold updateMetadata. destruct (Js.parseInt s) as [i|]; [|done].
  worlds w t a c l; destruct (t !! i) eqn:Hi; simpl;
    rewrite ?lookup_alter_eq, ?Hi; done.
Qed.

Lemma replacePhoto_replies s file w : (replacePhoto s file w).1 ≠ Uncaught.
Proof.
  unfold replacePhoto. destruct (Js.parseInt s) as [i|]; [|by destruct file].
  destruct file as [f|]; [|done].
  worlds w t a c l; destruct (t !! i) as [[n d [old|]]|] eqn:Hi; simpl;
    try done;
    try (destruct (Js.truthy old); simpl;
         try (destruct (c !! old); simpl));
    rewrite ?lookup_alter_eq, ?Hi; done.
Qed.

Lemma getById_replies s w : (getById s w).1 ≠ Uncaught.
Proof.
  unfold getById. destruct (Js.parseInt s) as [i|]; [|done].
  worlds w t a c l; by destruct (t !! i).
Qed.

Lemma deleteItem_replies s w : (deleteItem s w).1 ≠ Uncaught.
Proof.
  unfold deleteItem. destruct (Js.parseInt s) as [i|]; [|done].
  worlds w t a c l; destruct (t !! i) as [[n d [old|]]|]; simpl; try done;
    destruct (Js.truthy old); simpl; try done; by destruct (c !! old).
Qed.

Lemma getPhoto_replies s w : (getPhoto s w).1 ≠ Uncaught.
Proof.
  unfold getPhoto. destruct (Js.parseInt s) as [i|]; [|done].
  worlds w t a c l; destruct (t !! i) as [[n d [old|]]|]; simpl; try done;
    destruct (Js.truthy old); simpl; try done; by destruct (c !! old).
Qed.

Lemma searchRender_replies body w : (searchRender body w).1 ≠ Uncaught.
Proof.
  unfold searchRender. destruct (Js.parseIntArg _) as [i|]; [|done].
  worlds w t a c l; by destruct (t !! i).
Qed.

Lemma listItems_replies w : (listItems w).1 ≠ Uncaught.
Proof. worlds w t a c l; done. Qed.

(** X3: no request makes a query callback throw.  [itemToDto(rows[0])] is
    only reached after a statement that leaves a row under the selected
    id: the INSERT whose [insertId] is selected, or an UPDATE behind the
    existence check. *)
Theorem app_never_throws (r : request) (w : world) : (app r w).1 ≠ Uncaught.
Proof.
  unfold app.
  destruct (path r) as [|a [|s [|b [|c l]]]]; [done|..].
  - destruct (segmentIs "docs" a); [done|].
    destruct (segmentIs "register" a).
    { destruct (String.eqb (method r) "POST"); [|done].
      unfold mbind, M_bind. destruct (uploadSingle r w).
      apply register_replies. }
    destruct (segmentIs "inventory" a).
    { destruct (String.eqb (method r) "GET"); [apply listItems_replies|done]. }
    destruct (segmentIs "search" a).
    { destruct (String.eqb (method r) "POST");
        [apply searchRender_replies|done]. }
    by destruct (_ && _).
  - destruct (segmentIs "docs" a); [done|].
    destruct (segmentIs "inventory" a); [|done].
    destruct (includes _ _); [|done].
    destruct (String.eqb (method r) "GET"); [apply getById_replies|].
    destruct (String.eqb (method r) "PUT"); [apply updateMetadata_replies|].
    apply deleteItem_replies.
  - destruct (segmentIs "docs" a); [done|].
    destruct (_ && _); [|done].
    destruct (includes _ _); [|done].
    destruct (String.eqb (method r) "GET"); [apply getPhoto_replies|].
    unfold mbind, M_bind. destruct (uploadSingle r w).
    apply replacePhoto_replies.
  - by destruct (segmentIs "docs" a).
Qed.

End Replies.

(** ** Status codes *)

Section StatusCodes.

Lemma handlers_statuses :
  answers (statusIn [200; 500]%Z) listItems
  ∧ (∀ s, answers (statusIn [200; 400; 404; 500]%Z) (getById s))
  ∧ (∀ s b, answers (statusIn [200; 400; 404; 500]%Z) (updateMetadata s b))
  ∧ (∀ s, answers (statusIn [200; 400; 404; 500]%Z) (deleteItem s))
  ∧ (∀ s, answers (statusIn [200; 400; 404; 500]%Z) (getPhoto s))
  ∧ (∀ s f, answers (statusIn [200; 400; 404; 500]%Z) (replacePhoto s f))
  ∧ (∀ b, answers (statusIn [200; 400; 404; 500]%Z) (searchRender b))
  ∧ (∀ f b, answers (statusIn [201; 400; 500]%Z) (register f b)).
Proof.
  split_and!; intros;
    unfold listItems, getById, updateMetadata, deleteItem, getPhoto,
      replacePhoto, searchRender, register, unlinkPhoto, unlinkOld,
      unlinkUpload, internalError, invalidId, notFound, photoNotFound;
    repeat answers_step.
Qed.

Lemma handler_codes (r : request) (x : response) (code : Z) :
  statusIn [200; 400; 404; 500]%Z x →
  (∀ ms, guardedMethods (path r) = Some ms → method r ∈ ms) →
  status_of x = Some code → statusExplained r code.
Proof.
  intros H Hg Hx. specialize (H code Hx).
  repeat (apply elem_of_cons in H as [->|H]);
    [..|by apply not_elem_of_nil in H];
    (split_and!; [by repeat constructor| |done]);
    (split; [done|]; intros (ms & Hms & Hn); destruct Hn; by apply Hg).
Qed.

Lemma guard_codes (r : request) (ms : list string) (code : Z) :
  guardedMethods (path r) = Some ms → method r ∉ ms →
  status_of methodNotAllowed = Some code → statusExplained r code.
Proof.
  intros Hp Hm [= <-].
  split_and!; [by repeat constructor|split; eauto|done].
Qed.

Lemma noRoute_codes (r : request) (code : Z) :
  guardedMethods (path r) = None →
  status_of noRoute = Some code → statusExplained r code.
Proof.
  intros Hp. apply handler_codes.
  - apply statusIn_reply. by repeat constructor.
  - intros ms. by rewrite Hp.
Qed.

Lemma eqb_not_elem (m x : string) : String.eqb m x = false → m ∉ [x].
Proof.
  intros H%String.eqb_neq [Hx|Hx]%elem_of_cons; [done|].
  by apply not_elem_of_nil in Hx.
Qed.

Lemma eqb_elem (m x : string) : String.eqb m x = true → m ∈ [x].
Proof. intros ->%String.eqb_eq. by constructor. Qed.

(** X4: the status codes that the guards and the handlers of main.js
    send.  A reply of theirs has one of the statuses 200, 201, 400, 404,
    405 and 500; it is 405 exactly when the path is one of the five guarded
    paths, in any letter case, and the method is not listed for it; 201 is
    only sent for [POST /register].  (The replies of swagger-ui and of
    [res.sendFile] carry no status here.) *)
Theorem statuses_of_app (r : request) (w : world) (code : Z) :
  status_of (app r w).1 = Some code →
  code ∈ [200; 201; 400; 404; 405; 500]%Z
  ∧ (code = 405%Z ↔
     ∃ ms, guardedMethods (path r) = Some ms ∧ method r ∉ ms)
  ∧ (code = 201%Z →
     method r = "POST" ∧ ∃ a, path r = [a] ∧ segmentIs "register" a = true).
Proof.
  change (status_of (app r w).1 = Some code → statusExplained r code).
  destruct handlers_statuses
    as (Hlist & Hget & Hput & Hdel & Hphoto & Hreplace & Hsearch & Hreg).
  unfold app.
  destruct (path r) as [|a [|s [|b [|c l]]]] eqn:Hp; simpl.
  - apply noRoute_codes. by rewrite Hp.
  - destruct (segmentIs "docs" a); [done|].
    destruct (segmentIs "register" a) eqn:Ha.
    { assert (guardedMethods (path r) = Some ["POST"]) as Hg.
      { rewrite Hp. simpl. by rewrite Ha. }
      destruct (String.eqb (method r) "POST") eqn:Hm.
      - unfold mbind, M_bind.
        destruct (uploadSingle r w) as [file w']. intros Hx.
        specialize (Hreg file (form r) w' code Hx).
        assert (¬ ∃ ms, guardedMethods (path r) = Some ms ∧ method r ∉ ms)
          as Hpass.
        { intros (ms & Hms & Hn). rewrite Hg in Hms. injection Hms as <-.
          destruct Hn. by apply eqb_elem. }
        apply String.eqb_eq in Hm.
        repeat (apply elem_of_cons in Hreg as [->|Hreg]);
          [..|by apply not_elem_of_nil in Hreg];
          (split_and!; [by repeat constructor|by split|by eauto]).
      - apply (guard_codes r ["POST"]); [done|by apply eqb_not_elem]. }
    destruct (segmentIs "inventory" a) eqn:Hb.
    { assert (guardedMethods (path r) = Some ["GET"]) as Hg.
      { rewrite Hp. simpl. by rewrite Ha, Hb. }
      destruct (String.eqb (method r) "GET") eqn:Hm.
      - apply handler_codes.
        + intros c Hc. specialize (Hlist w c Hc).
          apply elem_of_cons in Hlist as [->|Hlist]; [by repeat constructor|].
          apply elem_of_cons in Hlist as [->|Hlist]; [by repeat constructor|].
          by apply not_elem_of_nil in Hlist.
        + intros ms. rewrite Hg. intros [= <-]. by apply eqb_elem.
      - apply (guard_codes r ["GET"]); [done|by apply eqb_not_elem]. }
    destruct (segmentIs "search" a) eqn:Hc.
    { assert (guardedMethods (path r) = Some ["POST"]) as Hg.
      { rewrite Hp. simpl. by rewrite Ha, Hb, Hc. }
      destruct (String.eqb (method r) "POST") eqn:Hm.
      - apply handler_codes; [apply Hsearch|].
        intros ms. rewrite Hg. intros [= <-]. by apply eqb_elem.
      - apply (guard_codes r ["POST"]); [done|by apply eqb_not_elem]. }
    destruct (_ && _); [done|].
    apply noRoute_codes. rewrite Hp. simpl. by rewrite Ha, Hb, Hc.
  - destruct (segmentIs "docs" a); [done|].
    destruct (segmentIs "inventory" a) eqn:Ha;
      [|apply noRoute_codes; rewrite Hp; simpl; by rewrite Ha].
    assert (guardedMethods (path r) = Some ["GET"; "PUT"; "DELETE"]) as Hg.
    { rewrite Hp. simpl. by rewrite Ha. }
    unfold includes. destruct (bool_decide _) eqn:Hm.
    + apply bool_decide_eq_true in Hm.
      assert (∀ ms, guardedMethods (path r) = Some ms → method r ∈ ms)
        as Hpass by (intros ms; rewrite Hg; by intros [= <-]).
      destruct (String.eqb (method r) "GET");
        [apply handler_codes; [apply Hget|exact Hpass]|].
      destruct (String.eqb (method r) "PUT");
        (apply handler_codes; [|exact Hpass]); [apply Hput|apply Hdel].
    + apply bool_decide_eq_false in Hm.
      by apply (guard_codes r ["GET"; "PUT"; "DELETE"]).
  - destruct (segmentIs "docs" a); [done|].
    destruct (segmentIs "inventory" a && segmentIs "photo" b) eqn:Ha;
      [|apply noRoute_codes; rewrite Hp; simpl; by rewrite Ha].
    assert (guardedMethods (path r) = Some ["GET"; "PUT"]) as Hg.
    { rewrite Hp. simpl. by rewrite Ha. }
    unfold includes. destruct (bool_decide _) eqn:Hm.
    + apply bool_decide_eq_true in Hm.
      assert (∀ ms, guardedMethods (path r) = Some ms → method r ∈ ms)
        as Hpass by (intros ms; rewrite Hg; by intros [= <-]).
      destruct (String.eqb (method r) "GET");
        [apply handler_codes; [apply Hphoto|exact Hpass]|].
      unfold mbind, M_bind. destruct (uploadSingle r w) as [file w'].
      apply handler_codes; [apply Hreplace|exact Hpass].
    + apply bool_decide_eq_false in Hm.
      by apply (guard_codes r ["GET"; "PUT"]).
  - destruct (segmentIs "docs" a); [done|].
    apply noRoute_codes. by rewrite Hp.
Qed.

End StatusCodes.

(** [PATCH /Register]: the guard of [/register] answers. *)
Lemma statuses_of_app_witness :
  let r := Request "PATCH" ["Register"] ∅ {["inventory_name" := "Drill"]}
                   None in
  status_of (app r (World ∅ 1 ∅ [])).1 = Some 405%Z
  ∧ ∃ ms, guardedMethods (path r) = Some ms ∧ method r ∉ ms.
Proof.
  intros r.
  assert (status_of (app r (World ∅ 1 ∅ [])).1 = Some 405%Z) as H
    by reflexivity.
  split; [exact H|].
  destruct (statuses_of_app r (World ∅ 1 ∅ []) 405 H) as (_ & H405 & _).
  by apply H405.
Defined.

(** ** The listing *)

Section Listing.

#[local] Instance id_le_total : Total id_le.
Proof. intros a b. unfold id_le. lia. Qed.

#[local] Instance id_le_trans : Transitive id_le.
Proof. intros a b c. unfold id_le. lia. Qed.

Lemma listItems_ok w :
  queriesSucceed 1 w = true →
  (listItems w).1
  = Reply 200
      (JsonItems
         (itemToDto
            <$> merge_sort id_le
                  ((λ kr, item_of_row kr.1 kr.2)
                     <$> map_to_list (inventory w)))).
Proof.
  intros Hq. destruct w as [t a c [|[] l]]; try discriminate Hq; done.
Qed.

(** X5: [GET /inventory] answers 200 with the DTOs of the stored items,
    each item once, in ascending order of id. *)
Theorem list_is_sorted_and_complete (w : world) :
  queriesSucceed 1 w = true →
  ∃ ds, (app (Request "GET" ["inventory"] ∅ ∅ None) w).1
        = Reply 200 (JsonItems ds)
        ∧ StronglySorted dtoIdLe ds
        ∧ NoDup (dto_id <$> ds)
        ∧ length ds = size (inventory w)
        ∧ ∀ d, d ∈ ds
               ↔ ∃ k r, inventory w !! k = Some r
                        ∧ d = itemToDto (item_of_row k r).
Proof.
  intros Hq. rewrite app_list, (listItems_ok w Hq).
  set (items := (λ kr : Z * row, item_of_row kr.1 kr.2)
                  <$> map_to_list (inventory w)).
  pose proof (merge_sort_Permutation id_le items) as Hperm.
  eexists. split; [reflexivity|]. split_and!.
  - apply (StronglySorted_fmap _ id_le); [by intros x y|].
    apply (StronglySorted_merge_sort id_le).
  - rewrite <- list_fmap_compose, Hperm. unfold items.
    rewrite <- list_fmap_compose. apply NoDup_fst_map_to_list.
  - rewrite length_fmap, Hperm. unfold items.
    by rewrite length_fmap, length_map_to_list.
  - intros d. rewrite list_elem_of_fmap. setoid_rewrite Hperm.
    unfold items. setoid_rewrite list_elem_of_fmap. split.
    + intros (it & -> & [k r] & -> & Hkr). exists k, r.
      by apply elem_of_map_to_list in Hkr.
    + intros (k & r & Hkr & ->). exists (item_of_row k r). split; [done|].
      exists (k, r). split; [done|]. by apply elem_of_map_to_list.
Qed.

End Listing.

Lemma list_is_sorted_and_complete_witness :
  queriesSucceed 1 drillRegistered = true
  ∧ ∃ ds, (app (Request "GET" ["inventory"] ∅ ∅ None) drillRegistered).1
          = Reply 200 (JsonItems ds)
          ∧ length ds = size (inventory drillRegistered).
Proof.
  assert (queriesSucceed 1 drillRegistered = true) as H by reflexivity.
  split; [exact H|].
  destruct (list_is_sorted_and_complete drillRegistered H)
    as (ds & Hds & _ & _ & Hlen & _).
  exists ds. by split.
Defined.

(** ** Deleting an item *)

Section DeleteItem.

Variables (w : world) (s : string) (i : Z) (r : row).
Hypothesis parsed : Js.parseInt s = Some i.
Hypothesis present : inventory w !! i = Some r.

(** X6: [DELETE /inventory/:id] of a stored item answers 200 with the DTO
    that GET returned for it, removes the row and nothing else from the
    table, and removes the photo file of the item, if it has one, from the
    cache directory; afterwards GET for the id and for its photo answer
    404. *)
Theorem delete_removes_item_and_photo :
  queriesSucceed 3 w = true →
  let out := app (Request "DELETE" ["inventory"; s] ∅ ∅ None) w in
  out.1 = Reply 200 (JsonItem (itemToDto (item_of_row i r)))
  ∧ out.1 = (getById s w).1
  ∧ inventory out.2 = delete i (inventory w)
  ∧ auto_increment out.2 = auto_increment w
  ∧ (∀ file, col_photo_filename r = Some file → Js.truthy file = true →
             cache out.2 = delete file (cache w))
  ∧ (Js.truthy_opt (col_photo_filename r) = false → cache out.2 = cache w)
  ∧ (getById s out.2).1 = notFound
  ∧ (getPhoto s out.2).1 = photoNotFound.
Proof.
  intros Hq out. subst out. rewrite app_deleteItem.
  unfold deleteItem, getById, getPhoto. rewrite parsed.
  destruct w as [t a c l]. simpl in present.
  outcomes l Hq; munfold; simpl; rewrite present; simpl.
  all: destruct r as [n d [file|]]; simpl.
  all: try (destruct (Js.truthy file) eqn:Hf; simpl).
  all: try (destruct (c !! file) eqn:Hc; simpl).
  all: rewrite ?lookup_delete_eq; simpl.
  all: split_and!; try done.
  all: try (intros ? [= <-] ?; by rewrite ?delete_id).
  all: try (intros ? [= <-] ?; congruence).
Qed.

(** X7: when the DELETE statement fails, the reply is 500 and nothing is
    removed: the row stays, and so does the photo file, which is only
    unlinked after a successful DELETE. *)
Theorem failed_delete_removes_nothing (l : list bool) :
  db_errors w = false :: true :: l →
  let out := app (Request "DELETE" ["inventory"; s] ∅ ∅ None) w in
  out.1 = internalError
  ∧ inventory out.2 = inventory w
  ∧ cache out.2 = cache w.
Proof.
  intros Hl out. subst out. rewrite app_deleteItem.
  unfold deleteItem. rewrite parsed.
  destruct w as [t a c l']. simpl in *. subst l'.
  munfold. simpl. by rewrite present.
Qed.

End DeleteItem.

(** ** Absent items *)

Section AbsentItem.

Variables (w : world) (s : string) (i : Z)
          (jb : gmap string Js.json) (f : gmap string string) (u : upload).
Hypothesis parsed : Js.parseInt s = Some i.
Hypothesis absent : inventory w !! i = None.
Hypothesis succeed : queriesSucceed 1 w = true.

(** X8: for an id that no row has, every id-bearing route answers 404
    after its first query -- never 500, never 200 -- and leaves the table
    as it is; [PUT /inventory/:id/photo] also unlinks the file that came
    with the request. *)
Theorem absent_item_is_not_found :
  (let out := app (Request "GET" ["inventory"; s] jb f None) w in
   out.1 = notFound ∧ inventory out.2 = inventory w)
  ∧ (let out := app (Request "PUT" ["inventory"; s] jb f None) w in
     out.1 = notFound ∧ inventory out.2 = inventory w)
  ∧ (let out := app (Request "DELETE" ["inventory"; s] jb f None) w in
     out.1 = notFound ∧ inventory out.2 = inventory w
     ∧ cache out.2 = cache w)
  ∧ (let out := app (Request "GET" ["inventory"; s; "photo"] jb f None) w in
     out.1 = photoNotFound ∧ inventory out.2 = inventory w)
  ∧ (let out :=
       app (Request "PUT" ["inventory"; s; "photo"] jb f (Some u)) w in
     out.1 = notFound ∧ inventory out.2 = inventory w
     ∧ cache out.2 !! upload_filename u = None)
  ∧ (f !! "id" = Some s →
     let out := app (Request "POST" ["search"] jb f None) w in
     out.1 = Reply 404 (Text "Item not found")
     ∧ inventory out.2 = inventory w).
Proof.
  rewrite app_getById, app_updateMetadata, app_deleteItem, app_getPhoto,
    app_replacePhoto, app_searchRender.
  unfold getById, updateMetadata, deleteItem, getPhoto, replacePhoto,
    searchRender, Js.parseIntArg. rewrite parsed.
  destruct w as [t a c [|[] l]]; try discriminate succeed;
    simpl in absent; munfold; simpl; rewrite absent; simpl;
    (split_and!; try done;
     [apply lookup_delete_eq
     |intros ->; simpl; rewrite parsed; simpl; by rewrite absent]).
Qed.

End AbsentItem.

Lemma absent_item_is_not_found_witness :
  Js.parseInt "5" = Some 5%Z
  ∧ inventory drillRegistered !! 5%Z = None
  ∧ queriesSucceed 1 drillRegistered = true
  ∧ (app (Request "GET" ["inventory"; "5"] ∅ ∅ None) drillRegistered).1
    = notFound.
Proof.
  assert (Js.parseInt "5" = Some 5%Z) as H1 by reflexivity.
  assert (inventory drillRegistered !! 5%Z = None) as H2 by reflexivity.
  assert (queriesSucceed 1 drillRegistered = true) as H3 by reflexivity.
  split_and!; try assumption.
  apply (absent_item_is_not_found drillRegistered "5" 5 ∅ ∅
           (Upload "3f9a" "BYTES") H1 H2 H3).
Defined.

Lemma delete_removes_item_and_photo_witness :
  Js.parseInt "1" = Some 1%Z
  ∧ inventory drillRegistered !! 1%Z = Some (Row "Drill" EmptyString None)
  ∧ queriesSucceed 3 drillRegistered = true
  ∧ (app (Request "DELETE" ["inventory"; "1"] ∅ ∅ None) drillRegistered).1
    = Reply 200 (JsonItem (Dto 1 "Drill" EmptyString None)).
Proof.
  assert (Js.parseInt "1" = Some 1%Z) as H1 by reflexivity.
  assert (inventory drillRegistered !! 1%Z
          = Some (Row "Drill" EmptyString None)) as H2 by reflexivity.
  assert (queriesSucceed 3 drillRegistered = true) as H3 by reflexivity.
  split_and!; try assumption.
  apply (delete_removes_item_and_photo drillRegistered "1" 1 _ H1 H2 H3).
Defined.

Lemma failed_delete_removes_nothing_witness :
  Js.parseInt "1" = Some 1%Z
  ∧ inventory photoRegistered !! 1%Z
    = Some (Row "Drill" EmptyString (Some "old"))
  ∧ db_errors photoRegistered = [false; true]
  ∧ cache (app (Request "DELETE" ["inventory"; "1"] ∅ ∅ None)
               photoRegistered).2
    = cache photoRegistered.
Proof.
  assert (Js.parseInt "1" = Some 1%Z) as H1 by reflexivity.
  assert (inventory photoRegistered !! 1%Z
          = Some (Row "Drill" EmptyString (Some "old"))) as H2
    by reflexivity.
  assert (db_errors photoRegistered = [false; true]) as H3 by reflexivity.
  split_and!; try assumption.
  apply (failed_delete_removes_nothing photoRegistered "1" 1 _ H1 H2 [] H3).
Defined.

(** ** Replacing a photo: the successful case *)

Section PhotoReplaced.

Variables (w : world) (s : string) (i : Z) (r : row) (u : upload).
Hypothesis parsed : Js.parseInt s = Some i.
Hypothesis present : inventory w !! i = Some r.
Hypothesis succeed : queriesSucceed 4 w = true.
Hypothesis named : Js.truthy (upload_filename u) = true.
Hypothesis distinct : col_photo_filename r ≠ Some (upload_filename u).

(** X9: [PUT /inventory/:id/photo] with a file, on a stored item whose
    former file has another name, answers 200 with a DTO whose [photoUrl]
    is the photo link of the item; the row names the new file, no other
    row changes, the former file is gone from the cache directory, and GET
    on the photo answers the new bytes. *)
Theorem replaced_photo_is_served :
  let out := app (Request "PUT" ["inventory"; s; "photo"] ∅ ∅ (Some u)) w in
  let r' := withPhoto r (Some (upload_filename u)) in
  out.1 = Reply 200 (JsonItem (itemToDto (item_of_row i r')))
  ∧ photoUrl (itemToDto (item_of_row i r')) = Some (photoUrlOf i)
  ∧ inventory out.2 !! i = Some r'
  ∧ (∀ k, k ≠ i → inventory out.2 !! k = inventory w !! k)
  ∧ (∀ old, col_photo_filename r = Some old → Js.truthy old = true →
            cache out.2 !! old = None)
  ∧ cache out.2 !! upload_filename u = Some (upload_bytes u)
  ∧ (getPhoto s out.2).1 = Reply 200 (ImageJpeg (upload_bytes u)).
Proof.
  intros out r'. subst out r'. rewrite app_replacePhoto.
  unfold replacePhoto, getPhoto, uploadSingle, withPhoto, itemToDto.
  rewrite parsed. cbn [photo].
  destruct w as [t a c l]. simpl in present.
  destruct r as [n d file]. simpl in distinct.
  destruct file as [old|];
    [assert (old ≠ upload_filename u) as Hne by congruence;
     destruct (Js.truthy old) eqn:Hold; [destruct (c !! old) eqn:Hc|]|].
  all: destruct l as [|[] [|[] [|[] [|[] l]]]]; try discriminate succeed.
  all: munfold; simpl; rewrite present; simpl; rewrite ?Hold; simpl.
  all: rewrite ?lookup_insert_ne by done; rewrite ?Hc; simpl.
  all: rewrite ?lookup_alter_eq, ?present; simpl; rewrite ?named; simpl.
  all: rewrite ?lookup_delete_ne, ?lookup_insert_eq by done; simpl.
  all: split_and!; try done.
  all: try (intros k Hk; by rewrite lookup_alter_ne).
  all: try (intros ? [= <-] ?; first [apply lookup_delete_eq|congruence]).
  all: try (intros ? [= <-] ?; by rewrite lookup_insert_ne).
  all: unfold itemToDto, Js.truthy_opt; simpl; rewrite ?named;
    rewrite ?lookup_delete_ne, ?lookup_insert_eq by done; done.
Qed.

End PhotoReplaced.

Lemma replaced_photo_is_served_witness :
  let u := Upload "new" "NEW BYTES" in
  let w := World (inventory photoRegistered) 2 (cache photoRegistered) [] in
  Js.parseInt "1" = Some 1%Z
  ∧ inventory w !! 1%Z = Some (Row "Drill" EmptyString (Some "old"))
  ∧ queriesSucceed 4 w = true
  ∧ Js.truthy (upload_filename u) = true
  ∧ Some "old" ≠ Some (upload_filename u)
  ∧ (getPhoto "1"
       (app (Request "PUT" ["inventory"; "1"; "photo"] ∅ ∅ (Some u)) w).2).1
    = Reply 200 (ImageJpeg "NEW BYTES").
Proof.
  intros u w.
  assert (Js.parseInt "1" = Some 1%Z) as H1 by reflexivity.
  assert (inventory w !! 1%Z = Some (Row "Drill" EmptyString (Some "old")))
    as H2 by reflexivity.
  assert (queriesSucceed 4 w = true) as H3 by reflexivity.
  assert (Js.truthy (upload_filename u) = true) as H4 by reflexivity.
  assert (Some "old" ≠ Some (upload_filename u)) as H5 by discriminate.
  split_and!; try assumption.
  apply (replaced_photo_is_served w "1" 1 _ u H1 H2 H3 H4 H5).
Defined.

(** ** Failing queries *)

Section RegisterFailures.

Variables (w : world) (jb : gmap string Js.json)
          (body : gmap string string) (p : option upload)
          (name : string) (l : list bool).
Hypothesis given : body !! "inventory_name" = Some name.
Hypothesis not_blank : allWhiteSpace name = false.

Lemma not_blank_nameMissing : nameMissing (Some name) = false.
Proof.
  destruct (nameMissing (Some name)) eqn:Hm; [|done].
  apply nameMissing_blank in Hm as [|(n & [= <-] & Hn)]; congruence.
Qed.

(** X10: when the INSERT of a registration fails, the reply is 500, no
    row is inserted, and the file that multer stored for the request is
    unlinked. *)
Theorem failed_insert_leaves_nothing :
  db_errors w = true :: l →
  let out := app (Request "POST" ["register"] jb body p) w in
  out.1 = internalError
  ∧ inventory out.2 = inventory w
  ∧ (∀ u, p = Some u → cache out.2 !! upload_filename u = None)
  ∧ (p = None → cache out.2 = cache w).
Proof.
  intros Hl out. subst out. rewrite app_register.
  unfold register, uploadSingle, mbind at 1, M_bind at 1. cbn [photo form].
  rewrite given, not_blank_nameMissing.
  destruct w as [t a c l']. simpl in Hl. subst l'.
  destruct p as [u|]; munfold; simpl; split_and!; try done.
  intros ? [= <-]. apply lookup_delete_eq.
Qed.

(** X11: when the INSERT succeeds and the SELECT after it fails, the
    reply is 500 although the item exists: the row is stored under the
    AUTO_INCREMENT value, with the trimmed name, and the uploaded file
    stays in the cache directory. *)
Theorem failed_select_after_insert_keeps_item :
  db_errors w = false :: true :: l →
  inventory w !! auto_increment w = None →
  let out := app (Request "POST" ["register"] jb body p) w in
  out.1 = internalError
  ∧ inventory out.2 !! auto_increment w
    = Some (Row (Js.trim name)
                (default EmptyString (body !! "description"))
                (upload_filename <$> p))
  ∧ auto_increment out.2 = (auto_increment w + 1)%Z
  ∧ (∀ u, p = Some u →
          cache out.2 !! upload_filename u = Some (upload_bytes u)).
Proof.
  intros Hl Hfresh out. subst out. rewrite app_register.
  unfold register, uploadSingle, mbind at 1, M_bind at 1. cbn [photo form].
  rewrite given, not_blank_nameMissing.
  assert ((match body !! "description" with
           | Some d => if Js.truthy d then d else EmptyString
           | None => EmptyString
           end) = default EmptyString (body !! "description")) as ->.
  { destruct (body !! "description") as [d|]; [apply truthy_id|done]. }
  destruct w as [t a c l']. simpl in Hl, Hfresh. subst l'.
  destruct p as [u|]; munfold; simpl; rewrite Hfresh; simpl;
    rewrite lookup_insert_eq; split_and!; try done.
  intros ? [= <-]. apply lookup_insert_eq.
Qed.

End RegisterFailures.

Section UpdateFailures.

Variables (w : world) (s : string) (i : Z) (r : row) (l : list bool).
Hypothesis parsed : Js.parseInt s = Some i.
Hypothesis present : inventory w !! i = Some r.
Hypothesis final_select_fails : db_errors w = false :: false :: true :: l.

(** X12: when the UPDATE of either PUT route succeeds and the final
    SELECT fails, the reply is 500 although the change is stored: the row
    has the new field values, respectively names the new photo file. *)
Theorem failed_select_after_update_keeps_change :
  (∀ body,
     let out := app (Request "PUT" ["inventory"; s] body ∅ None) w in
     out.1 = internalError
     ∧ inventory out.2 !! i = Some (updatedRow body r))
  ∧ (∀ u,
       let out :=
         app (Request "PUT" ["inventory"; s; "photo"] ∅ ∅ (Some u)) w in
       out.1 = internalError
       ∧ inventory out.2 !! i = Some (withPhoto r (Some (upload_filename u)))).
Proof.
  split.
  - intros body out. subst out. rewrite app_updateMetadata.
    unfold updateMetadata. rewrite parsed.
    destruct w as [t a c l']. simpl in *. subst l'.
    munfold. simpl. rewrite present. simpl.
    by rewrite lookup_alter_eq, present.
  - intros u out. subst out. rewrite app_replacePhoto.
    unfold replacePhoto, uploadSingle. rewrite parsed. cbn [photo].
    destruct w as [t a c l']. simpl in *. subst l'.
    munfold. simpl. rewrite present. simpl.
    destruct r as [n d [old|]]; simpl;
      [destruct (Js.truthy old); simpl;
       [destruct (_ !! old); simpl|]|];
      by rewrite lookup_alter_eq, present.
Qed.

End UpdateFailures.

Lemma failed_insert_leaves_nothing_witness :
  let body : gmap string string := {["inventory_name" := "Drill"]} in
  let p := Some (Upload "3f9a" "BYTES") in
  let w := World ∅ 1 ∅ [true] in
  body !! "inventory_name" = Some "Drill"
  ∧ allWhiteSpace "Drill" = false
  ∧ db_errors w = [true]
  ∧ (app (Request "POST" ["register"] ∅ body p) w).1 = internalError.
Proof.
  intros body p w.
  assert (body !! "inventory_name" = Some "Drill") as H1 by reflexivity.
  assert (allWhiteSpace "Drill" = false) as H2 by reflexivity.
  assert (db_errors w = [true]) as H3 by reflexivity.
  split_and!; try assumption.
  apply (failed_insert_leaves_nothing w ∅ body p "Drill" [] H1 H2 H3).
Defined.

Lemma failed_select_after_insert_keeps_item_witness :
  let body : gmap string string := {["inventory_name" := "Drill"]} in
  let w := World ∅ 1 ∅ [false; true] in
  body !! "inventory_name" = Some "Drill"
  ∧ allWhiteSpace "Drill" = false
  ∧ db_errors w = [false; true]
  ∧ inventory w !! auto_increment w = None
  ∧ (app (Request "POST" ["register"] ∅ body None) w).1 = internalError.
Proof.
  intros body w.
  assert (body !! "inventory_name" = Some "Drill") as H1 by reflexivity.
  assert (allWhiteSpace "Drill" = false) as H2 by reflexivity.
  assert (db_errors w = [false; true]) as H3 by reflexivity.
  assert (inventory w !! auto_increment w = None) as H4 by reflexivity.
  split_and!; try assumption.
  apply (failed_select_after_insert_keeps_item w ∅ body None "Drill" []
           H1 H2 H3 H4).
Defined.

Lemma failed_select_after_update_keeps_change_witness :
  let w := World {[1%Z := Row "Drill" "Cordless" None]} 2 ∅
                 [false; false; true] in
  let body : gmap string Js.json := {["description" := Js.JString "Hammer"]} in
  Js.parseInt "1" = Some 1%Z
  ∧ inventory w !! 1%Z = Some (Row "Drill" "Cordless" None)
  ∧ db_errors w = [false; false; true]
  ∧ (app (Request "PUT" ["inventory"; "1"] body ∅ None) w).1 = internalError.
Proof.
  intros w body.
  assert (Js.parseInt "1" = Some 1%Z) as H1 by reflexivity.
  assert (inventory w !! 1%Z = Some (Row "Drill" "Cordless" None)) as H2
    by reflexivity.
  assert (db_errors w = [false; false; true]) as H3 by reflexivity.
  split_and!; try assumption.
  apply (failed_select_after_update_keeps_change w "1" 1 _ [] H1 H2 H3).
Defined.

(** ** Repeating an update *)

Section RepeatedUpdate.

Variables (w : world) (s : string) (i : Z) (r : row)
          (body : gmap string Js.json).
Hypothesis parsed : Js.parseInt s = Some i.
Hypothesis present : inventory w !! i = Some r.
Hypothesis succeed : queriesSucceed 6 w = true.

Lemma updatedRow_idempotent (x : row) :
  updatedRow body (updatedRow body x) = updatedRow body x.
Proof.
  unfold updatedRow. simpl.
  by destruct (Js.stringOrNull _), (Js.stringOrNull _).
Qed.

(** X13: [PUT /inventory/:id] is idempotent: sending the same body a
    second time gives the same reply and leaves the table as the first
    request left it. *)
Theorem update_is_idempotent :
  let first := app (Request "PUT" ["inventory"; s] body ∅ None) w in
  let second := app (Request "PUT" ["inventory"; s] body ∅ None) first.2 in
  second.1 = first.1 ∧ inventory second.2 = inventory first.2.
Proof.
  intros first second. subst first second. rewrite !app_updateMetadata.
  assert (queriesSucceed 3 w = true
          ∧ forallb negb (take 3 (drop 3 (db_errors w))) = true)
    as [Hq1 Hq2].
  { clear -succeed. unfold queriesSucceed in *.
    destruct (db_errors w) as [|[] [|[] [|[] [|[] [|[] [|[] l]]]]]];
      by try discriminate succeed. }
  rewrite (updateMetadata_ok w s i r parsed present Hq1). simpl.
  erewrite updateMetadata_ok;
    [|exact parsed|simpl; by rewrite lookup_alter_eq, present|exact Hq2].
  rewrite (updatedRow_idempotent r). cbn [fst snd inventory].
  split; [done|]. apply map_eq. intros k.
  destruct (decide (k = i)) as [->|Hk]; [|by rewrite !lookup_alter_ne].
  rewrite !lookup_alter_eq. destruct (inventory w !! i) as [x|]; [|done].
  simpl. f_equal. apply (updatedRow_idempotent x).
Qed.

End RepeatedUpdate.

Lemma update_is_idempotent_witness :
  let w := World {[1%Z := Row "Drill" "Cordless" None]} 2 ∅ [] in
  let body : gmap string Js.json := {["description" := Js.JString "Hammer"]} in
  Js.parseInt "1" = Some 1%Z
  ∧ inventory w !! 1%Z = Some (Row "Drill" "Cordless" None)
  ∧ queriesSucceed 6 w = true
  ∧ (app (Request "PUT" ["inventory"; "1"] body ∅ None)
         (app (Request "PUT" ["inventory"; "1"] body ∅ None) w).2).1
    = (app (Request "PUT" ["inventory"; "1"] body ∅ None) w).1.
Proof.
  intros w body.
  assert (Js.parseInt "1" = Some 1%Z) as H1 by reflexivity.
  assert (inventory w !! 1%Z = Some (Row "Drill" "Cordless" None)) as H2
    by reflexivity.
  assert (queriesSucceed 6 w = true) as H3 by reflexivity.
  split_and!; try assumption.
  apply (update_is_idempotent w "1" 1 _ body H1 H2 H3).
Defined.

(** ** Registration: what it adds and what it keeps *)

Section Registered.

Variables (w : world) (jb : gmap string Js.json)
          (body : gmap string string) (p : option upload) (name : string).
Hypothesis reach : reachable w.
Hypothesis given : body !! "inventory_name" = Some name.
Hypothesis not_blank : allWhiteSpace name = false.

Lemma register_ok :
  queriesSucceed 2 w = true →
  app (Request "POST" ["register"] jb body p) w
  = (Reply 201
       (JsonItem
          (itemToDto
             (Item (auto_increment w) (Js.trim name)
                   (default EmptyString (body !! "description"))
                   (upload_filename <$> p)))),
     World (<[auto_increment w :=
                Row (Js.trim name)
                    (default EmptyString (body !! "description"))
                    (upload_filename <$> p)]> (inventory w))
           (auto_increment w + 1)
           (match p with
            | Some u => <[upload_filename u := upload_bytes u]> (cache w)
            | None => cache w
            end)
           (drop 2 (db_errors w))).
Proof.
  intros Hq. pose proof (reachable_fresh_key w reach) as Hfresh.
  rewrite app_register.
  unfold register, uploadSingle, mbind at 1, M_bind at 1. cbn [photo form].
  rewrite given, (not_blank_nameMissing name not_blank).
  assert ((match body !! "description" with
           | Some d => if Js.truthy d then d else EmptyString
           | None => EmptyString
           end) = default EmptyString (body !! "description")) as ->.
  { destruct (body !! "description") as [d|]; [apply truthy_id|done]. }
  destruct w as [t a c l]. simpl in Hfresh.
  destruct l as [|[] [|[] l]]; try discriminate Hq;
    destruct p as [u|]; munfold; simpl; rewrite Hfresh; simpl;
    by rewrite lookup_insert_eq.
Qed.

(** X14: a registration never disturbs the items that exist.  In a
    reachable world the id it assigns was not in use, every row that was
    stored is stored unchanged afterwards, and the counter moves on by
    one. *)
Theorem register_keeps_existing_items :
  queriesSucceed 2 w = true →
  let out := app (Request "POST" ["register"] jb body p) w in
  inventory w !! auto_increment w = None
  ∧ is_Some (inventory out.2 !! auto_increment w)
  ∧ (∀ k r, inventory w !! k = Some r → inventory out.2 !! k = Some r)
  ∧ auto_increment out.2 = (auto_increment w + 1)%Z.
Proof.
  intros Hq out. subst out. rewrite (register_ok Hq). simpl.
  pose proof (reachable_fresh_key w reach) as Hfresh.
  split_and!; try done.
  - by rewrite lookup_insert_eq.
  - intros k r Hk. rewrite lookup_insert_ne; [done|]. congruence.
Qed.

(** X15: a photo that is registered is the photo that is served.  After
    a registration with a file part, GET on the photo link of the created
    DTO answers 200 with the uploaded bytes. *)
Theorem registered_photo_is_served (u : upload) :
  p = Some u →
  Js.truthy (upload_filename u) = true →
  queriesSucceed 3 w = true →
  let out := app (Request "POST" ["register"] jb body p) w in
  ∃ d, out.1 = Reply 201 (JsonItem d)
       ∧ photoUrl d
         = Some ("/inventory/" +:+ Js.numberToString (dto_id d) +:+ "/photo")
       ∧ (app (Request "GET"
                 ["inventory"; Js.numberToString (dto_id d); "photo"]
                 ∅ ∅ None) out.2).1
         = Reply 200 (ImageJpeg (upload_bytes u)).
Proof.
  intros Hp Hname Hq out. subst out.
  assert (queriesSucceed 2 w = true
          ∧ forallb negb (take 1 (drop 2 (db_errors w))) = true)
    as [Hq2 Hq1].
  { clear -Hq. unfold queriesSucceed in *.
    destruct (db_errors w) as [|[] [|[] [|[] l]]];
      by try discriminate Hq. }
  rewrite (register_ok Hq2). subst p. simpl.
  eexists. split; [reflexivity|]. unfold itemToDto, Js.truthy_opt. simpl.
  rewrite Hname. simpl. rewrite ?Hname. split; [reflexivity|]. simpl.
  rewrite app_getPhoto. unfold getPhoto.
  rewrite parseInt_numberToString.
  destruct (drop 2 (db_errors w)) as [|[] l]; try discriminate Hq1;
    munfold; simpl; rewrite lookup_insert_eq; simpl; rewrite Hname; simpl;
    rewrite lookup_insert_eq; simpl; by rewrite lookup_insert_eq.
Qed.

End Registered.

Lemma register_keeps_existing_items_witness :
  let body : gmap string string := {["inventory_name" := "Saw"]} in
  reachable drillRegistered
  ∧ body !! "inventory_name" = Some "Saw"
  ∧ allWhiteSpace "Saw" = false
  ∧ queriesSucceed 2 drillRegistered = true
  ∧ inventory drillRegistered !! auto_increment drillRegistered = None.
Proof.
  intros body.
  assert (reachable drillRegistered) as H1
    by apply reachable_request, reachable_start.
  assert (body !! "inventory_name" = Some "Saw") as H2 by reflexivity.
  assert (allWhiteSpace "Saw" = false) as H3 by reflexivity.
  assert (queriesSucceed 2 drillRegistered = true) as H4 by reflexivity.
  split_and!; try assumption.
  destruct (register_keeps_existing_items drillRegistered ∅ body None "Saw"
              H1 H2 H3 H4) as (Hfresh & _).
  exact Hfresh.
Defined.

Lemma registered_photo_is_served_witness :
  let body : gmap string string := {["inventory_name" := "Saw"]} in
  let u := Upload "3f9a" "BYTES" in
  let w := World ∅ 1 ∅ [] in
  reachable w
  ∧ body !! "inventory_name" = Some "Saw"
  ∧ allWhiteSpace "Saw" = false
  ∧ Js.truthy (upload_filename u) = true
  ∧ queriesSucceed 3 w = true
  ∧ ∃ d, (app (Request "POST" ["register"] ∅ body (Some u)) w).1
         = Reply 201 (JsonItem d).
Proof.
  intros body u w.
  assert (reachable w) as H1 by apply reachable_start.
  assert (body !! "inventory_name" = Some "Saw") as H2 by reflexivity.
  assert (allWhiteSpace "Saw" = false) as H3 by reflexivity.
  assert (Js.truthy (upload_filename u) = true) as H4 by reflexivity.
  assert (queriesSucceed 3 w = true) as H5 by reflexivity.
  split_and!; try assumption.
  destruct (registered_photo_is_served w ∅ body (Some u) "Saw" H1 H2 H3 u
              eq_refl H4 H5) as (d & Hd & _).
  by exists d.
Defined.

(** ** The file name stays inside *)

Section FileName.

Variables (w1 w2 : world) (s : string) (i : Z) (n d f1 f2 : string)
          (body : gmap string string).
Hypothesis parsed : Js.parseInt s = Some i.
Hypothesis row1 : inventory w1 !! i = Some (Row n d (Some f1)).
Hypothesis row2 : inventory w2 !! i = Some (Row n d (Some f2)).
Hypothesis named1 : Js.truthy f1 = true.
Hypothesis named2 : Js.truthy f2 = true.
Hypothesis same_outcomes : db_errors w1 = db_errors w2.

(** X16: the name of a photo file never reaches a client.  Two worlds
    in which an item differs only in the name of its photo file give the
    same reply to [GET /inventory/:id] and the same search page. *)
Theorem file_name_is_not_exposed :
  (app (Request "GET" ["inventory"; s] ∅ ∅ None) w1).1
  = (app (Request "GET" ["inventory"; s] ∅ ∅ None) w2).1
  ∧ (body !! "id" = Some s →
     (app (Request "POST" ["search"] ∅ body None) w1).1
     = (app (Request "POST" ["search"] ∅ body None) w2).1).
Proof.
  rewrite !app_getById, !app_searchRender.
  unfold getById, searchRender, Js.parseIntArg. rewrite parsed.
  destruct w1 as [t1 a1 c1 l1], w2 as [t2 a2 c2 l2]. simpl in *. subst l2.
  split; [|intros ->; simpl; rewrite parsed];
    destruct l1 as [|[] l1]; munfold; simpl; rewrite ?row1, ?row2; simpl;
    try done; unfold itemToDto, searchPage, Js.truthy_opt; simpl;
    rewrite ?named1, ?named2; simpl; by rewrite ?named1, ?named2.
Qed.

End FileName.

Lemma file_name_is_not_exposed_witness :
  let w1 := World {[1%Z := Row "Drill" "Cordless" (Some "3f9a")]} 2 ∅ [] in
  let w2 := World {[1%Z := Row "Drill" "Cordless" (Some "77c0")]} 2 ∅ [] in
  Js.parseInt "1" = Some 1%Z
  ∧ inventory w1 !! 1%Z = Some (Row "Drill" "Cordless" (Some "3f9a"))
  ∧ inventory w2 !! 1%Z = Some (Row "Drill" "Cordless" (Some "77c0"))
  ∧ Js.truthy "3f9a" = true ∧ Js.truthy "77c0" = true
  ∧ db_errors w1 = db_errors w2
  ∧ (app (Request "GET" ["inventory"; "1"] ∅ ∅ None) w1).1
    = (app (Request "GET" ["inventory"; "1"] ∅ ∅ None) w2).1.
Proof.
  intros w1 w2.
  assert (Js.parseInt "1" = Some 1%Z) as H1 by reflexivity.
  assert (inventory w1 !! 1%Z = Some (Row "Drill" "Cordless" (Some "3f9a")))
    as H2 by reflexivity.
  assert (inventory w2 !! 1%Z = Some (Row "Drill" "Cordless" (Some "77c0")))
    as H3 by reflexivity.
  assert (Js.truthy "3f9a" = true) as H4 by reflexivity.
  assert (Js.truthy "77c0" = true) as H5 by reflexivity.
  assert (db_errors w1 = db_errors w2) as H6 by reflexivity.
  split_and!; try assumption.
  destruct (file_name_is_not_exposed w1 w2 "1" 1 _ _ _ _ ∅
              H1 H2 H3 H4 H5 H6) as [H _].
  exact H.
Defined.

(** ** Names as [register] stores them *)

Section TrimmedNames.

Variable Q : string → Prop.

Lemma satisfy_insertRow name desc file :
  Q name → keeps (namesSatisfy Q) (insertRow name desc file).
Proof.
  intros Hname. apply keeps_query. intros w H. cbv beta zeta.
  destruct (inventory w !! auto_increment w) eqn:Hk; simpl; [done|].
  intros k r. simpl. rewrite lookup_insert. case_decide.
  - by intros [= <-].
  - apply H.
Qed.

Lemma satisfy_updatePhotoFilename i file :
  keeps (namesSatisfy Q) (updatePhotoFilename i file).
Proof.
  apply keeps_query. intros w H k r. simpl.
  rewrite lookup_alter. case_decide; [subst k|apply H].
  destruct (inventory w !! i) as [r0|] eqn:Hr; simpl; [|done].
  intros [= <-]. simpl. by apply (H i).
Qed.

Lemma satisfy_deleteRow i : keeps (namesSatisfy Q) (deleteRow i).
Proof.
  apply keeps_query. intros w H k r. simpl.
  rewrite lookup_delete. case_decide; [done|apply H].
Qed.

End TrimmedNames.

Section TrimmedNamesKept.

#[local] Hint Resolve satisfy_updatePhotoFilename satisfy_deleteRow : keeps.

Lemma trimmed_register file body :
  keeps (namesSatisfy trimmedName) (register file body).
Proof.
  unfold register.
  destruct (nameMissing (body !! "inventory_name")) eqn:Hm.
  - keeps_handlers.
  - apply keeps_bind; [|intros ?; keeps_handlers].
    apply satisfy_insertRow.
    destruct (body !! "inventory_name") as [n|]; [|done]. simpl in *.
    apply orb_false_iff in Hm as [_ Hm]. apply String.eqb_neq in Hm.
    destruct (trim_surrounding n) as (l & r & _ & _ & _ & Hh & Hl).
    by split_and!.
Qed.

#[local] Hint Resolve trimmed_register : keeps.

Lemma trimmed_app r :
  ¬ isUpdate r → keeps (namesSatisfy trimmedName) (app r).
Proof.
  intros Hput. unfold app.
  destruct (path r) as [|a [|s [|b [|c l]]]] eqn:Hp; try by keeps_handlers.
  destruct (segmentIs "docs" a); [keeps_handlers|].
  destruct (segmentIs "inventory" a) eqn:Ha; [|keeps_handlers].
  destruct (includes _ _); [|keeps_handlers].
  destruct (String.eqb (method r) "GET"); [keeps_handlers|].
  destruct (String.eqb (method r) "PUT") eqn:Hm; [|keeps_handlers].
  apply String.eqb_eq in Hm. destruct Hput. by exists a, s.
Qed.

(** X17: as long as no [PUT /inventory/:id] has been served, whatever the
    letter case of its path, every stored name is as [register] stores it:
    not empty and without white space at either end. *)
Theorem names_are_trimmed_without_update (w : world) :
  reachableWithoutUpdate w →
  ∀ k r, inventory w !! k = Some r → trimmedName (col_inventory_name r).
Proof.
  induction 1 as [c|w r _ IH Hr|w l _ IH].
  - intros k r. simpl. by rewrite lookup_empty.
  - by apply (trimmed_app r Hr w).
  - exact IH.
Qed.

End TrimmedNamesKept.

Lemma names_are_trimmed_without_update_witness :
  let r := Request "POST" ["register"] ∅ {["inventory_name" := "  Saw "]}
                   None in
  let w := (app r (World ∅ 1 ∅ [])).2 in
  reachableWithoutUpdate w
  ∧ inventory w !! 1%Z = Some (Row "Saw" EmptyString None)
  ∧ trimmedName "Saw".
Proof.
  intros r w.
  assert (reachableWithoutUpdate w) as H1.
  { apply withoutUpdate_request; [apply withoutUpdate_start|].
    intros (a & s & Hp & _). discriminate Hp. }
  assert (inventory w !! 1%Z = Some (Row "Saw" EmptyString None)) as H2
    by (vm_compute; reflexivity).
  split_and!; try assumption.
  apply (names_are_trimmed_without_update w H1 1%Z _ H2).
Defined.

(** ** A failing first query *)

Section FirstQueryFails.

Variables (w : world) (s : string) (i : Z) (l : list bool)
          (jb : gmap string Js.json) (f : gmap string string) (u : upload).
Hypothesis parsed : Js.parseInt s = Some i.
Hypothesis fails : db_errors w = true :: l.

(** X18: when the first query of a request fails, each of the eight
    routes that query the database answers 500 with a generic message and
    changes nothing in the table; the two routes behind multer unlink the
    file that came with the request. *)
Theorem failed_first_query_is_internal_error :
  (∀ name, f !! "inventory_name" = Some name →
           allWhiteSpace name = false →
           let out := app (Request "POST" ["register"] jb f (Some u)) w in
           out.1 = internalError ∧ inventory out.2 = inventory w
           ∧ cache out.2 !! upload_filename u = None)
  ∧ (let out := app (Request "GET" ["inventory"] jb f None) w in
     out.1 = internalError ∧ inventory out.2 = inventory w)
  ∧ (let out := app (Request "GET" ["inventory"; s] jb f None) w in
     out.1 = internalError ∧ inventory out.2 = inventory w)
  ∧ (let out := app (Request "PUT" ["inventory"; s] jb f None) w in
     out.1 = internalError ∧ inventory out.2 = inventory w)
  ∧ (let out := app (Request "DELETE" ["inventory"; s] jb f None) w in
     out.1 = internalError ∧ inventory out.2 = inventory w
     ∧ cache out.2 = cache w)
  ∧ (let out := app (Request "GET" ["inventory"; s; "photo"] jb f None) w in
     out.1 = internalError ∧ inventory out.2 = inventory w)
  ∧ (let out :=
       app (Request "PUT" ["inventory"; s; "photo"] jb f (Some u)) w in
     out.1 = internalError ∧ inventory out.2 = inventory w
     ∧ cache out.2 !! upload_filename u = None)
  ∧ (f !! "id" = Some s →
     let out := app (Request "POST" ["search"] jb f None) w in
     out.1 = Reply 500 (Text "Internal error")
     ∧ inventory out.2 = inventory w).
Proof.
  split.
  { intros name Hname Hblank. rewrite app_register.
    unfold register, uploadSingle, mbind at 1, M_bind at 1.
    cbn [photo form]. rewrite Hname, (not_blank_nameMissing name Hblank).
    destruct w as [t a c l']. simpl in fails. subst l'.
    munfold. simpl. split_and!; try done. apply lookup_delete_eq. }
  rewrite app_list, app_getById, app_updateMetadata, app_deleteItem,
    app_getPhoto, app_replacePhoto, app_searchRender.
  unfold listItems, getById, updateMetadata, deleteItem, getPhoto,
    replacePhoto, searchRender, Js.parseIntArg. rewrite parsed.
  destruct w as [t a c l']. simpl in fails. subst l'.
  munfold. simpl. split_and!; try done.
  - apply lookup_delete_eq.
  - intros ->. simpl. by rewrite parsed.
Qed.

End FirstQueryFails.

Lemma failed_first_query_is_internal_error_witness :
  let w := World {[1%Z := Row "Drill" "Cordless" None]} 2 ∅ [true] in
  Js.parseInt "1" = Some 1%Z
  ∧ db_errors w = [true]
  ∧ (app (Request "GET" ["inventory"] ∅ ∅ None) w).1 = internalError.
Proof.
  intros w.
  assert (Js.parseInt "1" = Some 1%Z) as H1 by reflexivity.
  assert (db_errors w = [true]) as H2 by reflexivity.
  split_and!; try assumption.
  destruct (failed_first_query_is_internal_error w "1" 1 [] ∅ ∅
              (Upload "3f9a" "BYTES") H1 H2) as (_ & [H _] & _).
  exact H.
Defined.
